(** * Parts catalog: schema, row-level-security policies and client bootstrap

    Two artifacts are modelled.

    - [supabase/migrations/20251107154643_create_initial_schema.sql]: the
      migration is declarative, so it is transcribed as data ([Schema.schema],
      [Schema.policies]) and given meaning by a small semantics of the SQL
      constructs it uses: assignment casts, column defaults, NOT NULL, CHECK
      with three-valued logic, PRIMARY KEY / UNIQUE, REFERENCES ... ON DELETE
      CASCADE and permissive row-level-security policies.
    - [src/lib/supabase.ts]: the module body that reads the two configuration
      values, logs and throws when one is missing, and otherwise exports
      whatever [createClient] makes of them. *)

From Stdlib Require Import List String Ascii ZArith NArith Bool Lia DecimalString.
Import ListNotations.
Local Open Scope string_scope.
Local Open Scope Z_scope.

(** ** SQL values and expressions *)

Module Sql.

Inductive sqltype := UUID | TEXT | BOOLEAN | TIMESTAMPTZ | NUMERIC | INTEGER.

(** A NUMERIC is kept as an unscaled integer and a decimal scale (the digits
    after the point); a TIMESTAMPTZ as microseconds since 1970-01-01 UTC; a
    UUID as its 128-bit number; TEXT as its bytes in UTF-8. [VInt] is an
    integer of any size; a column of type INTEGER holds 32-bit ones. NaN
    and the infinite numbers and timestamps are left out. *)
Inductive value :=
| VNull
| VUuid (u : N)
| VText (s : string)
| VBool (b : bool)
| VTime (t : Z)
| VNumeric (unscaled : Z) (scale : N)
| VInt (z : Z).

Definition int4_min : Z := - 2 ^ 31.
Definition int4_max : Z := 2 ^ 31 - 1.

Definition valid_int4 (z : Z) : bool := (int4_min <=? z) && (z <=? int4_max).

Definition valid_uuid (u : N) : bool := (u <? 2 ^ 128)%N.

(** Timestamps run from 4714-11-24 BC to the end of the year 294276. *)
Definition min_timestamp : Z := - 210866803200000000.
Definition end_timestamp : Z := 9224318016000000000.

Definition valid_timestamp (t : Z) : bool :=
  (min_timestamp <=? t) && (t <? end_timestamp).

Definition decimal (n : N) : string := NilZero.string_of_uint (N.to_uint n).

(** At most 131072 digits before the decimal point and 16383 after. *)
Definition valid_numeric (m : Z) (s : N) : bool :=
  (s <=? 16383)%N
  && (N.of_nat (String.length (decimal (Z.abs_N m / 10 ^ s))) <=? 131072)%N.

Definition continuation (b : N) : bool := ((128 <=? b) && (b <=? 191))%N.

(** Well-formed UTF-8 without the byte 0, which a text cannot hold. *)
Fixpoint valid_utf8 (bs : list N) : bool :=
  match bs with
  | [] => true
  | b0 :: r0 =>
      if (b0 =? 0)%N then false
      else if (b0 <=? 127)%N then valid_utf8 r0
      else if ((194 <=? b0) && (b0 <=? 223))%N then
        match r0 with
        | b1 :: r1 => continuation b1 && valid_utf8 r1
        | _ => false
        end
      else if ((224 <=? b0) && (b0 <=? 239))%N then
        match r0 with
        | b1 :: b2 :: r2 =>
            ((if b0 =? 224 then 160 else 128) <=? b1)%N
            && (b1 <=? (if b0 =? 237 then 159 else 191))%N
            && continuation b2 && valid_utf8 r2
        | _ => false
        end
      else if ((240 <=? b0) && (b0 <=? 244))%N then
        match r0 with
        | b1 :: b2 :: b3 :: r3 =>
            ((if b0 =? 240 then 144 else 128) <=? b1)%N
            && (b1 <=? (if b0 =? 244 then 143 else 191))%N
            && continuation b2 && continuation b3 && valid_utf8 r3
        | _ => false
        end
      else false
  end.

Definition valid_text (s : string) : bool :=
  valid_utf8 (map N_of_ascii (list_ascii_of_string s)).

(** The values a column of a type can hold; NULL inhabits every type. *)
Definition has_type (v : value) (ty : sqltype) : bool :=
  match v, ty with
  | VNull, _ => true
  | VUuid u, UUID => valid_uuid u
  | VText s, TEXT => valid_text s
  | VBool _, BOOLEAN => true
  | VTime t, TIMESTAMPTZ => valid_timestamp t
  | VNumeric m s, NUMERIC => valid_numeric m s
  | VInt z, INTEGER => valid_int4 z
  | _, _ => false
  end.

(** The values that can be written in a statement at all. An integer too
    large for INTEGER is still a number. *)
Definition well_formed (v : value) : bool :=
  match v with
  | VNull => true
  | VUuid u => valid_uuid u
  | VText s => valid_text s
  | VBool _ => true
  | VTime t => valid_timestamp t
  | VNumeric m s => valid_numeric m s
  | VInt z => valid_int4 z || valid_numeric z 0
  end.

(** *** Output as text *)

Definition zero_pad (width : nat) (n : N) : string :=
  string_of_list_ascii (repeat "0"%char (width - String.length (decimal n)))
  ++ decimal n.

Definition int_out (z : Z) : string :=
  (if z <? 0 then "-" else "") ++ decimal (Z.abs_N z).

(** The integer part, then as many digits after the point as the scale. *)
Definition numeric_out (m : Z) (s : N) : string :=
  (if m <? 0 then "-" else "")
  ++ decimal (Z.abs_N m / 10 ^ s)
  ++ (if (s =? 0)%N then ""
      else "." ++ zero_pad (N.to_nat s) (Z.abs_N m mod 10 ^ s)%N).

Definition bool_out (b : bool) : string := if b then "true" else "false".

Definition hex_digit (d : N) : ascii :=
  match d with
  | 0 => "0" | 1 => "1" | 2 => "2" | 3 => "3" | 4 => "4" | 5 => "5"
  | 6 => "6" | 7 => "7" | 8 => "8" | 9 => "9" | 10 => "a" | 11 => "b"
  | 12 => "c" | 13 => "d" | 14 => "e" | _ => "f"
  end%N%char.

(** [len] hexadecimal digits of [u], the first one of weight [16 ^ top]. *)
Fixpoint hex_run (u : N) (top : nat) (len : nat) : list ascii :=
  match len with
  | O => []
  | S len' =>
      hex_digit ((u / 16 ^ N.of_nat top) mod 16)%N
      :: hex_run u (Nat.pred top) len'
  end.

(** 8-4-4-4-12 lower-case hexadecimal digits. *)
Definition uuid_out (u : N) : string :=
  string_of_list_ascii
    (hex_run u 31 8 ++ "-"%char :: hex_run u 23 4 ++ "-"%char
     :: hex_run u 19 4 ++ "-"%char :: hex_run u 15 4 ++ "-"%char
     :: hex_run u 11 12)%list.

(** Year, month and day of a day number counted from 1970-01-01, in the
    proleptic Gregorian calendar; the year 0 is 1 BC. *)
Definition civil_from_days (days : Z) : Z * Z * Z :=
  let z := days + 719468 in
  let era := z / 146097 in
  let doe := z mod 146097 in
  let yoe := (doe - doe / 1460 + doe / 36524 - doe / 146096) / 365 in
  let doy := doe - (365 * yoe + yoe / 4 - yoe / 100) in
  let mp := (5 * doy + 2) / 153 in
  let d := doy - (153 * mp + 2) / 5 + 1 in
  let m := if mp <? 10 then mp + 3 else mp - 9 in
  let y := yoe + era * 400 in
  (if m <=? 2 then y + 1 else y, m, d).

Fixpoint drop_zeros (l : list ascii) : list ascii :=
  match l with
  | "0"%char :: l' => drop_zeros l'
  | _ => l
  end.

(** The fraction of a second: nothing when it is 0, else up to six digits
    without trailing zeros. *)
Definition fraction_out (micros : N) : string :=
  if (micros =? 0)%N then ""
  else "." ++ string_of_list_ascii
                (rev (drop_zeros (rev (list_ascii_of_string
                                         (zero_pad 6 micros))))).

(** A timestamp as a session with DateStyle ISO and TimeZone UTC, the
    defaults of the platform, prints it. *)
Definition timestamptz_out (t : Z) : string :=
  let '(y, m, d) := civil_from_days (t / 86400000000) in
  let us := Z.to_N (t mod 86400000000) in
  let secs := (us / 1000000)%N in
  zero_pad 4 (Z.to_N (if 0 <? y then y else 1 - y))
  ++ "-" ++ zero_pad 2 (Z.to_N m) ++ "-" ++ zero_pad 2 (Z.to_N d)
  ++ " " ++ zero_pad 2 (secs / 3600)%N
  ++ ":" ++ zero_pad 2 ((secs / 60) mod 60)%N
  ++ ":" ++ zero_pad 2 (secs mod 60)%N
  ++ fraction_out (us mod 1000000)%N
  ++ "+00" ++ (if 0 <? y then "" else " BC").

Definition text_out (v : value) : string :=
  match v with
  | VNull => ""
  | VUuid u => uuid_out u
  | VText s => s
  | VBool b => bool_out b
  | VTime t => timestamptz_out t
  | VNumeric m s => numeric_out m s
  | VInt z => int_out z
  end.

(** *** Assignment casts *)

(** To the nearest integer, halves away from zero. *)
Definition round_numeric (m : Z) (s : N) : Z :=
  let p := 10 ^ Z.of_N s in
  Z.sgn m * ((2 * Z.abs m + p) / (2 * p)).

(** Whether a value of the kind of [v] can be assigned to a column of the
    type at all: its own type, a number to either numeric type, anything
    to TEXT. Nothing but text goes to UUID, BOOLEAN or TIMESTAMPTZ, and
    text goes nowhere else. *)
Definition assignable (v : value) (ty : sqltype) : bool :=
  match v, ty with
  | VNull, _ => true
  | _, TEXT => true
  | VUuid _, UUID => true
  | VBool _, BOOLEAN => true
  | VTime _, TIMESTAMPTZ => true
  | (VNumeric _ _ | VInt _), (NUMERIC | INTEGER) => true
  | _, _ => false
  end.

(** What a column of the type stores when it is assigned [v]; [None] when
    there is no cast or the value does not fit the type. *)
Definition assign_cast (v : value) (ty : sqltype) : option value :=
  if well_formed v && assignable v ty then
    match v, ty with
    | VNull, _ => Some VNull
    | VText s, TEXT => Some v
    | _, TEXT => Some (VText (text_out v))
    | VInt z, INTEGER => if valid_int4 z then Some v else None
    | VInt z, NUMERIC => if valid_numeric z 0 then Some (VNumeric z 0) else None
    | VNumeric m s, INTEGER =>
        if valid_int4 (round_numeric m s)
        then Some (VInt (round_numeric m s)) else None
    | _, _ => Some v
    end
  else None.

Definition is_null (v : value) : bool :=
  match v with VNull => true | _ => false end.

(** SQL [=] on two values, as used by unique indexes and foreign keys: it is
    unknown ([None]) as soon as one side is NULL. *)
Definition sql_eq (a b : value) : option bool :=
  match a, b with
  | VNull, _ | _, VNull => None
  | VUuid x, VUuid y => Some (x =? y)%N
  | VText x, VText y => Some (x =? y)%string
  | VBool x, VBool y => Some (Bool.eqb x y)
  | VTime x, VTime y => Some (x =? y)
  | VNumeric x s, VNumeric y t => Some ((x * 10 ^ Z.of_N t =? y * 10 ^ Z.of_N s))
  | VInt x, VInt y => Some (x =? y)
  | _, _ => Some false
  end.

Definition is_true (o : option bool) : bool :=
  match o with Some true => true | _ => false end.

Definition is_false (o : option bool) : bool :=
  match o with Some false => true | _ => false end.

(** A row maps column names to values. *)
Definition row := list (string * value).

Definition get (c : string) (r : row) : value :=
  match find (fun kv => (fst kv =? c)%string) r with
  | Some kv => snd kv
  | None => VNull
  end.

(** The boolean expressions that occur in the migration: the literal [true]
    of the policies, [quantity > 0] and [status IN (...)]. *)
Inductive expr :=
| ETrue
| EGt (c : string) (k : Z)
| EIn (c : string) (l : list string).

(** Three-valued evaluation: a comparison with NULL is unknown. *)
Definition eval (e : expr) (r : row) : option bool :=
  match e with
  | ETrue => Some true
  | EGt c k => match get c r with VInt z => Some (k <? z) | _ => None end
  | EIn c l =>
      match get c r with
      | VText s => Some (existsb (String.eqb s) l)
      | _ => None
      end
  end.

(** *** Vocabulary for texts *)

(** Characters 1 to 127: one byte each in UTF-8. *)
Definition plain (c : ascii) : bool :=
  ((1 <=? N_of_ascii c) && (N_of_ascii c <=? 127))%N.

Definition plain_string (s : string) : bool :=
  forallb plain (list_ascii_of_string s).


End Sql.

(** ** The migration, transcribed *)

Module Schema.
Import Sql.

Inductive table := catalog_users | catalog_parts | cart | verification_codes.

Definition all_tables : list table :=
  [catalog_users; catalog_parts; cart; verification_codes].

Definition table_eqb (a b : table) : bool :=
  match a, b with
  | catalog_users, catalog_users
  | catalog_parts, catalog_parts
  | cart, cart
  | verification_codes, verification_codes => true
  | _, _ => false
  end.

Inductive default_expr :=
| lit (v : value)
| call_gen_random_uuid
| call_now.

Inductive on_delete := NO_ACTION | CASCADE.

Inductive column_constraint :=
| PRIMARY_KEY
| UNIQUE
| NOT_NULL
| DEFAULT (d : default_expr)
| CHECK (e : expr)
| REFERENCES (t : table) (c : string) (a : on_delete).

Record column := col {
  cname : string;
  ctype : sqltype;
  cconstraints : list column_constraint
}.

Record table_decl := {
  columns : list column;
  (* table-level UNIQUE (c1, ..., cn) *)
  table_unique : list (list string)
}.

Definition schema (t : table) : table_decl :=
  match t with
  | catalog_users => {|
      columns := [
        col "id" UUID [PRIMARY_KEY; DEFAULT call_gen_random_uuid];
        col "email" TEXT [UNIQUE; NOT_NULL];
        col "password_hash" TEXT [NOT_NULL];
        col "name" TEXT [NOT_NULL];
        col "company_name" TEXT [NOT_NULL; DEFAULT (lit (VText ""))];
        col "address" TEXT [NOT_NULL; DEFAULT (lit (VText ""))];
        col "phone_number" TEXT [NOT_NULL; DEFAULT (lit (VText ""))];
        col "status" TEXT [NOT_NULL; DEFAULT (lit (VText "pending"));
                           CHECK (EIn "status" ["pending"; "approved"; "rejected"])];
        col "is_admin" BOOLEAN [DEFAULT (lit (VBool false))];
        col "created_at" TIMESTAMPTZ [DEFAULT call_now];
        col "updated_at" TIMESTAMPTZ [DEFAULT call_now] ];
      table_unique := [] |}
  | catalog_parts => {|
      columns := [
        col "id" UUID [PRIMARY_KEY; DEFAULT call_gen_random_uuid];
        col "part_number" TEXT [NOT_NULL];
        col "name_en" TEXT [NOT_NULL];
        col "name_ru" TEXT [NOT_NULL];
        col "category" TEXT [NOT_NULL];
        col "price" NUMERIC [NOT_NULL];
        col "qty" INTEGER [DEFAULT (lit (VInt 0))];
        col "image_url" TEXT [];
        col "created_at" TIMESTAMPTZ [DEFAULT call_now];
        col "updated_at" TIMESTAMPTZ [DEFAULT call_now] ];
      table_unique := [] |}
  | cart => {|
      columns := [
        col "id" UUID [PRIMARY_KEY; DEFAULT call_gen_random_uuid];
        col "user_id" UUID [REFERENCES catalog_users "id" CASCADE];
        col "part_id" UUID [REFERENCES catalog_parts "id" CASCADE];
        col "quantity" INTEGER [DEFAULT (lit (VInt 1)); CHECK (EGt "quantity" 0)];
        col "created_at" TIMESTAMPTZ [DEFAULT call_now] ];
      table_unique := [ ["user_id"; "part_id"] ] |}
  | verification_codes => {|
      columns := [
        col "id" UUID [PRIMARY_KEY; DEFAULT call_gen_random_uuid];
        col "email" TEXT [NOT_NULL];
        col "code" TEXT [NOT_NULL];
        col "expires_at" TIMESTAMPTZ [NOT_NULL];
        col "used" BOOLEAN [DEFAULT (lit (VBool false))];
        col "created_at" TIMESTAMPTZ [DEFAULT call_now] ];
      table_unique := [] |}
  end.

(** ALTER TABLE ... ENABLE ROW LEVEL SECURITY, once per table. *)
Definition row_level_security (t : table) : bool :=
  match t with
  | catalog_users | catalog_parts | cart | verification_codes => true
  end.

Inductive command := SELECT | INSERT | UPDATE | DELETE.

Inductive role := anon | authenticated.

Inductive policy_for := FOR (c : command) | FOR_ALL.

Record policy := {
  polname : string;
  polrelation : table;
  polcmd : policy_for;
  polroles : list role;
  polqual : option expr;       (* USING (...) *)
  polwithcheck : option expr   (* WITH CHECK (...) *)
}.

Definition policies : list policy := [
  {| polname := "Allow anonymous registration"; polrelation := catalog_users;
     polcmd := FOR INSERT; polroles := [anon; authenticated];
     polqual := None; polwithcheck := Some ETrue |};
  {| polname := "Users can read own data"; polrelation := catalog_users;
     polcmd := FOR SELECT; polroles := [anon; authenticated];
     polqual := Some ETrue; polwithcheck := None |};
  {| polname := "Users can update own data"; polrelation := catalog_users;
     polcmd := FOR UPDATE; polroles := [anon; authenticated];
     polqual := Some ETrue; polwithcheck := Some ETrue |};
  {| polname := "Anyone can read parts"; polrelation := catalog_parts;
     polcmd := FOR SELECT; polroles := [anon; authenticated];
     polqual := Some ETrue; polwithcheck := None |};
  {| polname := "Anyone can insert parts"; polrelation := catalog_parts;
     polcmd := FOR INSERT; polroles := [anon; authenticated];
     polqual := None; polwithcheck := Some ETrue |};
  {| polname := "Anyone can update parts"; polrelation := catalog_parts;
     polcmd := FOR UPDATE; polroles := [anon; authenticated];
     polqual := Some ETrue; polwithcheck := Some ETrue |};
  {| polname := "Anyone can delete parts"; polrelation := catalog_parts;
     polcmd := FOR DELETE; polroles := [anon; authenticated];
     polqual := Some ETrue; polwithcheck := None |};
  {| polname := "Users can manage own cart"; polrelation := cart;
     polcmd := FOR_ALL; polroles := [anon; authenticated];
     polqual := Some ETrue; polwithcheck := Some ETrue |};
  {| polname := "Anyone can create codes"; polrelation := verification_codes;
     polcmd := FOR INSERT; polroles := [anon; authenticated];
     polqual := None; polwithcheck := Some ETrue |};
  {| polname := "Anyone can read codes"; polrelation := verification_codes;
     polcmd := FOR SELECT; polroles := [anon; authenticated];
     polqual := Some ETrue; polwithcheck := None |};
  {| polname := "Anyone can update codes"; polrelation := verification_codes;
     polcmd := FOR UPDATE; polroles := [anon; authenticated];
     polqual := Some ETrue; polwithcheck := Some ETrue |} ].

End Schema.

(** ** Row-level security *)

Module Rls.
Import Sql Schema.

Definition role_eqb (a b : role) : bool :=
  match a, b with
  | anon, anon | authenticated, authenticated => true
  | _, _ => false
  end.

Definition command_eqb (a b : command) : bool :=
  match a, b with
  | SELECT, SELECT | INSERT, INSERT | UPDATE, UPDATE | DELETE, DELETE => true
  | _, _ => false
  end.

(** A policy is considered for a statement when it is declared on the
    statement's table, names the calling role in its TO list and is FOR the
    statement's command or FOR ALL. *)
Definition applies (p : policy) (r : role) (c : command) (t : table) : bool :=
  table_eqb (polrelation p) t
  && existsb (role_eqb r) (polroles p)
  && match polcmd p with
     | FOR_ALL => true
     | FOR c' => command_eqb c c'
     end.

(** WITH CHECK falls back on USING when it is not written. *)
Definition with_check_expr (p : policy) : option expr :=
  match polwithcheck p with
  | Some e => Some e
  | None => polqual p
  end.

Definition passes (e : option expr) (r : row) : bool :=
  match e with
  | Some e => is_true (eval e r)
  | None => false
  end.

(** Policies are permissive: they are combined with OR, and with no policy
    at all nothing passes. *)
Definition visible (ps : list policy) (r : role) (c : command) (t : table)
    (old : row) : bool :=
  existsb (fun p => applies p r c t && passes (polqual p) old) ps.

Definition checked (ps : list policy) (r : role) (c : command) (t : table)
    (new : row) : bool :=
  existsb (fun p => applies p r c t && passes (with_check_expr p) new) ps.

(** Whether role [r] may run command [c] on table [t], for an existing row
    [old] (SELECT, UPDATE, DELETE) and a proposed row [new] (INSERT,
    UPDATE). *)
Definition permitted (r : role) (c : command) (t : table) (old new : row)
    : bool :=
  if row_level_security t then
    match c with
    | SELECT | DELETE => visible policies r c t old
    | INSERT => checked policies r c t new
    | UPDATE => visible policies r c t old && checked policies r c t new
    end
  else true.

End Rls.

(** ** Statements against the schema *)

Module Engine.
Import Sql Schema.

Record database := {
  tbl_catalog_users : list row;
  tbl_catalog_parts : list row;
  tbl_cart : list row;
  tbl_verification_codes : list row
}.

(** The state right after the migration: four empty tables. *)
Definition empty : database :=
  {| tbl_catalog_users := []; tbl_catalog_parts := [];
     tbl_cart := []; tbl_verification_codes := [] |}.

Definition rows (db : database) (t : table) : list row :=
  match t with
  | catalog_users => tbl_catalog_users db
  | catalog_parts => tbl_catalog_parts db
  | cart => tbl_cart db
  | verification_codes => tbl_verification_codes db
  end.

Definition set_rows (db : database) (t : table) (rs : list row) : database :=
  match t with
  | catalog_users =>
      {| tbl_catalog_users := rs; tbl_catalog_parts := tbl_catalog_parts db;
         tbl_cart := tbl_cart db;
         tbl_verification_codes := tbl_verification_codes db |}
  | catalog_parts =>
      {| tbl_catalog_users := tbl_catalog_users db; tbl_catalog_parts := rs;
         tbl_cart := tbl_cart db;
         tbl_verification_codes := tbl_verification_codes db |}
  | cart =>
      {| tbl_catalog_users := tbl_catalog_users db;
         tbl_catalog_parts := tbl_catalog_parts db;
         tbl_cart := rs;
         tbl_verification_codes := tbl_verification_codes db |}
  | verification_codes =>
      {| tbl_catalog_users := tbl_catalog_users db;
         tbl_catalog_parts := tbl_catalog_parts db;
         tbl_cart := tbl_cart db;
         tbl_verification_codes := rs |}
  end.

(** What the two volatile functions of the DEFAULT clauses return for the
    statement at hand. *)
Record env := {
  gen_random_uuid : N;
  now : Z;
  gen_random_uuid_valid : valid_uuid gen_random_uuid = true;
  now_valid : valid_timestamp now = true
}.

(** The conditions a statement can fail with. [data_exception] stands for
    the conditions of class 22: the value given for the column is outside
    the bounds of its own type, or does not fit the type it is cast to. *)
Inductive error :=
| undefined_column (c : string)
| column_specified_twice (c : string)
| data_exception (c : string)
| datatype_mismatch (c : string)
| not_null_violation (c : string)
| check_violation (c : string)
| unique_violation (key : list string)
| foreign_key_violation (c : string)
| stack_depth_exceeded.

Inductive result :=
| Ok (db : database)
| Rejected (e : error).

Definition guard (o : option error) (k : result) : result :=
  match o with
  | Some e => Rejected e
  | None => k
  end.

Notation "'assert' o ';;' k" := (guard o k)
  (at level 10, o at level 100, k at level 200).

Fixpoint first_error {A : Type} (f : A -> option error) (l : list A)
    : option error :=
  match l with
  | [] => None
  | a :: l' =>
      match f a with
      | Some e => Some e
      | None => first_error f l'
      end
  end.

(** *** Reading a column declaration *)

Definition is_primary_key (cd : column) : bool :=
  existsb (fun k => match k with PRIMARY_KEY => true | _ => false end)
          (cconstraints cd).

Definition is_unique (cd : column) : bool :=
  existsb (fun k => match k with UNIQUE => true | _ => false end)
          (cconstraints cd).

(** PRIMARY KEY implies NOT NULL. *)
Definition is_not_null (cd : column) : bool :=
  existsb (fun k => match k with NOT_NULL | PRIMARY_KEY => true | _ => false end)
          (cconstraints cd).

Fixpoint default_of_constraints (ks : list column_constraint)
    : option default_expr :=
  match ks with
  | [] => None
  | DEFAULT d :: _ => Some d
  | _ :: ks' => default_of_constraints ks'
  end.

Definition default_of (cd : column) : option default_expr :=
  default_of_constraints (cconstraints cd).

Definition checks_of (cd : column) : list expr :=
  flat_map (fun k => match k with CHECK e => [e] | _ => [] end)
           (cconstraints cd).

Definition references_of (cd : column) : list (table * string * on_delete) :=
  flat_map (fun k => match k with REFERENCES t c a => [(t, c, a)] | _ => [] end)
           (cconstraints cd).

Definition find_column (td : table_decl) (c : string) : option column :=
  find (fun cd => (cname cd =? c)%string) (columns td).

Definition unique_keys (td : table_decl) : list (list string) :=
  map (fun cd => [cname cd])
      (filter (fun cd => is_primary_key cd || is_unique cd) (columns td))
  ++ table_unique td.

(** The columns of other tables that reference table [t], with the
    referenced column and the ON DELETE action. *)
Definition referencing (t : table)
    : list (table * string * string * on_delete) :=
  flat_map (fun t' =>
    flat_map (fun cd =>
      flat_map (fun '(rt, rc, a) =>
        if table_eqb rt t then [(t', cname cd, rc, a)] else [])
        (references_of cd))
      (columns (schema t')))
    all_tables.

(** *** Checks on one row *)

Definition eval_default (e : env) (d : default_expr) : value :=
  match d with
  | lit v => v
  | call_gen_random_uuid => VUuid (gen_random_uuid e)
  | call_now => VTime (now e)
  end.

Definition assigned (c : string) (vals : list (string * value))
    : option value :=
  match find (fun kv => (fst kv =? c)%string) vals with
  | Some kv => Some (snd kv)
  | None => None
  end.

(** The column list of an INSERT, name by name in the order written: each
    must be a column of the table and must not have been named before. *)
Fixpoint check_targets (td : table_decl) (seen : list string)
    (vals : list (string * value)) : option error :=
  match vals with
  | [] => None
  | (c, _) :: rest =>
      match find_column td c with
      | None => Some (undefined_column c)
      | Some _ =>
          if existsb (String.eqb c) seen
          then Some (column_specified_twice c)
          else check_targets td (c :: seen) rest
      end
  end.

(** Each value, in the order written, must be a value of its own type and
    of a kind that can be assigned to its column. *)
Definition check_types (td : table_decl) (vals : list (string * value))
    : option error :=
  first_error (fun '(c, v) =>
      match find_column td c with
      | None => Some (undefined_column c)
      | Some cd =>
          if negb (well_formed v) then Some (data_exception c)
          else if assignable v (ctype cd) then None
          else Some (datatype_mismatch c)
      end) vals.

(** The casts are then evaluated column by column, in table order: a
    number may turn out not to fit an INTEGER. *)
Definition check_casts (td : table_decl) (vals : list (string * value))
    : option error :=
  first_error (fun cd =>
      match assigned (cname cd) vals with
      | Some v =>
          match assign_cast v (ctype cd) with
          | Some _ => None
          | None => Some (data_exception (cname cd))
          end
      | None => None
      end)
    (columns td).

Definition first_of (checks : list (option error)) : option error :=
  first_error (fun o => o) checks.

(** What an INSERT checks before any row is built. *)
Definition check_request (td : table_decl) (vals : list (string * value))
    : option error :=
  first_of [check_targets td [] vals; check_types td vals;
            check_casts td vals].

(** What an UPDATE checks before any row is visited: each SET item names a
    column and gives it a value of an assignable kind; then no column is
    assigned twice; then the casts. *)
Definition check_assignments (td : table_decl) (vals : list (string * value))
    : option error :=
  first_of [check_types td vals; check_targets td [] vals;
            check_casts td vals].

(** What a column stores when it is assigned [v]. *)
Definition stored (v : value) (ty : sqltype) : value :=
  match assign_cast v ty with
  | Some v' => v'
  | None => VNull
  end.

(** The row an INSERT proposes: a column left out takes its DEFAULT, or NULL
    when it has none; a column given explicitly, NULL included, takes what
    was given, cast to its type. *)
Definition build_row (e : env) (td : table_decl) (vals : list (string * value))
    : row :=
  map (fun cd =>
         (cname cd,
          match assigned (cname cd) vals with
          | Some v => stored v (ctype cd)
          | None =>
              match default_of cd with
              | Some d => eval_default e d
              | None => VNull
              end
          end))
      (columns td).

(** The row an UPDATE proposes: SET columns replaced, the others kept. *)
Definition assign (td : table_decl) (vals : list (string * value)) (r : row)
    : row :=
  map (fun cd =>
         (cname cd,
          match assigned (cname cd) vals with
          | Some v => stored v (ctype cd)
          | None => get (cname cd) r
          end))
      (columns td).

Definition check_not_null (td : table_decl) (r : row) : option error :=
  first_error (fun cd =>
      if is_not_null cd && is_null (get (cname cd) r)
      then Some (not_null_violation (cname cd))
      else None)
    (columns td).

(** A CHECK constraint is violated only when its expression is false; an
    unknown result passes. *)
Definition check_checks (td : table_decl) (r : row) : option error :=
  first_error (fun cd =>
      first_error (fun e =>
          if is_false (eval e r) then Some (check_violation (cname cd))
          else None)
        (checks_of cd))
    (columns td).

(** Two rows collide on a key when they are equal on each of its columns;
    a NULL in either makes the comparison unknown, so they do not collide. *)
Definition same_key (key : list string) (r r' : row) : bool :=
  forallb (fun c => is_true (sql_eq (get c r) (get c r'))) key.

Definition check_unique (td : table_decl) (others : list row) (r : row)
    : option error :=
  first_error (fun key =>
      if existsb (same_key key r) others then Some (unique_violation key)
      else None)
    (unique_keys td).

(** Each non-NULL reference must point at an existing row. *)
Definition check_references (db : database) (td : table_decl) (r : row)
    : option error :=
  first_error (fun cd =>
      first_error (fun '(t', c', _) =>
          let v := get (cname cd) r in
          if is_null v
             || existsb (fun r' => is_true (sql_eq (get c' r') v)) (rows db t')
          then None
          else Some (foreign_key_violation (cname cd)))
        (references_of cd))
    (columns td).

(** No ON UPDATE clause is written, so the action is NO ACTION: when a
    row of [t] has had a referenced key changed, no row may be left
    referring to the old key, unless some row of [t] now has that key. *)
Definition check_referenced (db : database) (t : table) (old new : row)
    : option error :=
  first_error (fun '(t', c, rc, _) =>
      if negb (is_null (get rc old))
         && negb (is_true (sql_eq (get rc old) (get rc new)))
         && existsb (fun r' => is_true (sql_eq (get c r') (get rc old)))
                    (rows db t')
         && negb (existsb (fun x => is_true (sql_eq (get rc x) (get rc old)))
                          (rows db t))
      then Some (foreign_key_violation c)
      else None)
    (referencing t).

(** *** INSERT, UPDATE, DELETE *)

Definition insert (e : env) (t : table) (vals : list (string * value))
    (db : database) : result :=
  let td := schema t in
  assert check_request td vals ;;
  let r := build_row e td vals in
  assert check_not_null td r ;;
  assert check_checks td r ;;
  assert check_unique td (rows db t) r ;;
  let db' := set_rows db t (rows db t ++ [r]) in
  assert check_references db' td r ;;
  Ok db'.

(** Rows are visited in table order; [done] holds the rows already visited
    (rewritten or kept), [todo] the rows still to visit. NOT NULL, CHECK
    and the unique keys are checked as each row is rewritten. *)
Fixpoint update_rows (t : table) (vals : list (string * value))
    (where_ : row -> bool) (db : database) (done todo : list row) : result :=
  match todo with
  | [] => Ok (set_rows db t done)
  | r :: rest =>
      if where_ r then
        let td := schema t in
        let r' := assign td vals r in
        assert check_not_null td r' ;;
        assert check_checks td r' ;;
        assert check_unique td (done ++ rest) r' ;;
        update_rows t vals where_ db (done ++ [r']) rest
      else update_rows t vals where_ db (done ++ [r]) rest
  end.

(** The references of a rewritten row: one that is NULL or has not changed
    is not looked up again. *)
Definition check_references_changed (db : database) (td : table_decl)
    (old new : row) : option error :=
  first_error (fun cd =>
      first_error (fun '(t', c', _) =>
          let v := get (cname cd) new in
          if is_null v
             || is_true (sql_eq (get (cname cd) old) v)
             || existsb (fun r' => is_true (sql_eq (get c' r') v)) (rows db t')
          then None
          else Some (foreign_key_violation (cname cd)))
        (references_of cd))
    (columns td).

(** The references are checked once the statement has rewritten its rows,
    for each rewritten row in turn, against the state [db'] it leaves:
    first the references to the row, then the references of the row. *)
Definition check_after_update (t : table) (vals : list (string * value))
    (where_ : row -> bool) (db db' : database) : option error :=
  first_error (fun r =>
      if where_ r then
        let r' := assign (schema t) vals r in
        first_of [check_referenced db' t r r';
                  check_references_changed db' (schema t) r r']
      else None)
    (rows db t).

Definition update (t : table) (vals : list (string * value))
    (where_ : row -> bool) (db : database) : result :=
  assert check_assignments (schema t) vals ;;
  match update_rows t vals where_ db [] (rows db t) with
  | Rejected e => Rejected e
  | Ok db' => assert check_after_update t vals where_ db db' ;; Ok db'
  end.

(** Whether row [r'] of a referencing table points, through column [c], at
    one of the rows [gone] (on their column [rc]). *)
Definition refers_to (c rc : string) (gone : list row) (r' : row) : bool :=
  existsb (fun r => is_true (sql_eq (get c r') (get rc r))) gone.

(** Removes the rows of [t] selected by [doomed], then treats every column
    that references [t]: ON DELETE CASCADE removes the referring rows in
    turn, NO ACTION rejects the statement when one is left. [depth] bounds
    the nesting of cascades. *)
Fixpoint delete_from (depth : nat) (t : table) (doomed : row -> bool)
    (db : database) : result :=
  match depth with
  | O => Rejected stack_depth_exceeded
  | S depth' =>
      let gone := filter doomed (rows db t) in
      let db1 := set_rows db t (filter (fun r => negb (doomed r)) (rows db t)) in
      fold_left (fun acc '(t', c, rc, a) =>
          match acc with
          | Rejected e => Rejected e
          | Ok db2 =>
              match a with
              | CASCADE => delete_from depth' t' (refers_to c rc gone) db2
              | NO_ACTION =>
                  if existsb (refers_to c rc gone) (rows db2 t')
                  then Rejected (foreign_key_violation c)
                  else Ok db2
              end
          end)
        (referencing t) (Ok db1)
  end.

Inductive statement :=
| Insert (t : table) (vals : list (string * value))
| Update (t : table) (vals : list (string * value)) (where_ : row -> bool)
| Delete (t : table) (where_ : row -> bool).

Definition exec (e : env) (s : statement) (db : database) : result :=
  match s with
  | Insert t vals => insert e t vals db
  | Update t vals where_ => update t vals where_ db
  | Delete t where_ => delete_from (S (List.length all_tables)) t where_ db
  end.

(** The state a statement leaves behind: a rejected statement changes
    nothing. *)
Definition state_after (e : env) (s : statement) (db : database) : database :=
  match exec e s db with
  | Ok db' => db'
  | Rejected _ => db
  end.

(** The states the database can be in: the migrated, empty one and whatever
    accepted statements make of it. *)
Inductive reachable : database -> Prop :=
| reachable_empty : reachable empty
| reachable_exec e s db db' :
    reachable db -> exec e s db = Ok db' -> reachable db'.

(** WHERE id = u *)
Definition where_id (u : N) (r : row) : bool :=
  is_true (sql_eq (get "id" r) (VUuid u)).

(** UPDATE catalog_parts SET qty = v WHERE w, seen row by row. *)
Definition set_qty (v : value) (w : row -> bool) (r : row) : row :=
  if w r then assign (schema catalog_parts) [("qty", v)] r else r.

(** *** Vocabulary for requests *)

(** The value is of the kind of the type, whatever its size. *)
Definition same_kind (v : value) (ty : sqltype) : bool :=
  match v, ty with
  | VUuid _, UUID | VText _, TEXT | VBool _, BOOLEAN
  | VTime _, TIMESTAMPTZ | VNumeric _ _, NUMERIC | VInt _, INTEGER => true
  | _, _ => false
  end.

(** Each value of the list is of the type of the column it is given for. *)
Definition given_typed (td : table_decl) (vals : list (string * value)) : Prop :=
  Forall (fun kv => exists cd, find_column td (fst kv) = Some cd
                               /\ has_type (snd kv) (ctype cd) = true) vals.

(** *** Vocabulary of the invariants *)

(** Every column of the row holds a value of the column's type. *)
Definition typed (td : table_decl) (r : row) : bool :=
  forallb (fun cd => has_type (get (cname cd) r) (ctype cd)) (columns td).

Definition no_error (o : option error) : bool :=
  match o with None => true | Some _ => false end.

(** A row that fits its table: typed, NOT NULL and CHECK respected. *)
Definition row_ok (t : table) (r : row) : bool :=
  typed (schema t) r
  && no_error (check_not_null (schema t) r)
  && no_error (check_checks (schema t) r).

(** No two rows of the list collide on [key]. *)
Definition unique_on (key : list string) (rs : list row) : Prop :=
  ForallOrdPairs (fun a b => same_key key a b = false) rs.

(** The cart rows of user [u] for part [p]. *)
Definition cart_rows_of (u p : N) (rs : list row) : list row :=
  filter (fun r => is_true (sql_eq (get "user_id" r) (VUuid u))
                   && is_true (sql_eq (get "part_id" r) (VUuid p))) rs.

End Engine.

(** ** Client bootstrap ([src/lib/supabase.ts]) *)

Module Bootstrap.

(** What an entry of [import.meta.env] or an imported string constant can
    be: a string, or [undefined] when it is not set. *)
Inductive js_value := undefined | js_string (s : string).

(** JavaScript truthiness: [undefined] and the empty string are falsy. *)
Definition truthy (v : js_value) : bool :=
  match v with
  | undefined => false
  | js_string s => negb (s =? "")%string
  end.

(** [a || b] *)
Definition js_or (a b : js_value) : js_value :=
  if truthy a then a else b.

Record import_meta_env := {
  VITE_SUPABASE_URL : js_value;
  VITE_SUPABASE_ANON_KEY : js_value
}.

Record auth_options := {
  autoRefreshToken : bool;
  persistSession : bool;
  detectSessionInUrl : bool
}.

Record client_options := { auth : auth_options }.

(** One call [console.error(label, object)]: the label and the object's
    properties in the order they are written. *)
Record console_entry := {
  label : string;
  properties : list (string * js_value)
}.

(** How evaluating the module ends: an uncaught [Error] with its message, or
    the exported binding [supabase]. *)
Inductive completion (client : Type) :=
| Throw (message : string)
| Export (supabase : client).
Arguments Throw {client} message.
Arguments Export {client} supabase.

Record outcome (client : Type) := {
  console : list console_entry;
  completed : completion client
}.
Arguments console {client} o.
Arguments completed {client} o.

Section Module_body.

(** The two constants imported from [./supabase-config], which is not part
    of the sources at hand, and the constructor of [@supabase/supabase-js],
    an external library: a call of it either returns a handle or throws. *)
Variables SUPABASE_URL SUPABASE_ANON_KEY : js_value.
Variable SupabaseClient : Type.
Variable createClient :
  js_value -> js_value -> client_options -> completion SupabaseClient.

Definition supabaseUrl (env : import_meta_env) : js_value :=
  js_or (VITE_SUPABASE_URL env) SUPABASE_URL.

Definition supabaseAnonKey (env : import_meta_env) : js_value :=
  js_or (VITE_SUPABASE_ANON_KEY env) SUPABASE_ANON_KEY.

Definition missing_message : string :=
  "Missing Supabase environment variables. Please restart the dev server.".

Definition load (env : import_meta_env) : outcome SupabaseClient :=
  if negb (truthy (supabaseUrl env)) || negb (truthy (supabaseAnonKey env))
  then
    {| console := [
         {| label := "Environment variables:";
            properties := [
              ("VITE_SUPABASE_URL", supabaseUrl env);
              ("VITE_SUPABASE_ANON_KEY",
               js_string (if truthy (supabaseAnonKey env)
                          then "exists" else "missing")) ] |} ];
       completed := Throw missing_message |}
  else
    {| console := [];
       completed :=
         createClient (supabaseUrl env) (supabaseAnonKey env)
           {| auth := {| autoRefreshToken := false;
                         persistSession := false;
                         detectSessionInUrl := false |} |} |}.

End Module_body.

(** A handle that simply records what [createClient] was given. *)
Record recorded_client := {
  client_url : js_value;
  client_key : js_value;
  client_options_ : client_options
}.

(** A stand-in for the constructor, to run the module on concrete
    configurations: it throws when it is given no URL or one that does not
    start with [http://] or [https://], and otherwise returns a handle that
    records what it was given. *)
Definition record_client (url key : js_value) (options : client_options)
    : completion recorded_client :=
  match url with
  | undefined => Throw "supabaseUrl is required."
  | js_string s =>
      if String.prefix "http://" s || String.prefix "https://" s
      then Export {| client_url := url; client_key := key;
                     client_options_ := options |}
      else Throw "Invalid supabaseUrl: Must be a valid HTTP or HTTPS URL."
  end.

End Bootstrap.

(** ** Sample data *)

Module Samples.
Import Sql Schema Engine.

(** A number taken modulo 2^128 is a UUID. *)
Definition uuid_wraps (u : N) : valid_uuid (u mod 2 ^ 128) = true :=
  proj2 (N.ltb_lt (u mod 2 ^ 128) (2 ^ 128))
        (N.mod_lt u (2 ^ 128) (N.neq_sym _ _ (N.lt_neq 0 (2 ^ 128) eq_refl))).

(** The statement gets [u] as its generated id, at time 0. *)
Definition at_uuid (u : N) : env :=
  {| gen_random_uuid := u mod 2 ^ 128; now := 0;
     gen_random_uuid_valid := uuid_wraps u; now_valid := eq_refl |}.

Definition alice : list (string * value) :=
  [("email", VText "alice@example.com"); ("password_hash", VText "$2a$10$")%string;
   ("name", VText "Alice")].

Definition bolt : list (string * value) :=
  [("part_number", VText "B-8"); ("name_en", VText "Bolt");
   ("name_ru", VText "Bolt M8"); ("category", VText "fasteners");
   ("price", VNumeric 125 2)].

(** One user (id 1), one part (id 2), the part once in the user's cart. *)
Definition shop : database :=
  state_after (at_uuid 3)
    (Insert cart [("user_id", VUuid 1); ("part_id", VUuid 2)])
    (state_after (at_uuid 2) (Insert catalog_parts bolt)
       (state_after (at_uuid 1) (Insert catalog_users alice) empty)).

End Samples.

(** ** Vocabulary for keys and references *)

Module Keys.
Import Sql Schema Engine.

Definition id_column : column :=
  col "id" UUID [PRIMARY_KEY; DEFAULT call_gen_random_uuid].

Definition email_column : column := col "email" TEXT [UNIQUE; NOT_NULL].

(** A reference [v] is NULL or equals the id of one of the [targets]. *)
Definition points_to (targets : list row) (v : value) : bool :=
  is_null v
  || existsb (fun r' => is_true (sql_eq (get "id" r') v)) targets.

(** Both references of a cart row are NULL or point at a stored row. *)
Definition references_ok (users parts : list row) (r : row) : bool :=
  points_to users (get "user_id" r) && points_to parts (get "part_id" r).

End Keys.

(** ** Statements run by a role *)

Module Roles.
Import Sql Schema Rls Engine.

(** How a statement issued by a role ends: done, failed on a constraint, or
    denied because the new row violates the row-level-security policies. *)
Inductive outcome :=
| Done (db : database)
| Failed (e : error)
| Denied.

Definition lift (r : result) : outcome :=
  match r with
  | Ok db => Done db
  | Rejected e => Failed e
  end.

(** The rows of [t] that command [c] of role [who] can touch: those the
    USING clauses of the policies for [c] let through and, since a WHERE
    clause reads the row, those of the SELECT policies as well. Without row
    level security every row can be touched. *)
Definition within_reach (who : role) (c : command) (t : table) (r : row)
    : bool :=
  negb (row_level_security t)
  || (visible policies who c t r && visible policies who SELECT t r).

(** Whether the WITH CHECK clauses for [c] accept the new row. *)
Definition may_write (who : role) (c : command) (t : table) (new : row)
    : bool :=
  negb (row_level_security t) || checked policies who c t new.

(** INSERT checks the new row against the policies before the constraints;
    UPDATE and DELETE silently skip the rows out of reach, and UPDATE checks
    each new row. The cascade of a DELETE is run by the system and is not
    subject to the policies. *)
Definition exec_as (who : role) (e : env) (s : statement) (db : database)
    : outcome :=
  match s with
  | Insert t vals =>
      match check_request (schema t) vals with
      | Some err => Failed err
      | None =>
          if may_write who INSERT t (build_row e (schema t) vals)
          then lift (insert e t vals db)
          else Denied
      end
  | Update t vals where_ =>
      match check_assignments (schema t) vals with
      | Some err => Failed err
      | None =>
          let selected r := where_ r && within_reach who UPDATE t r in
          if forallb (fun r => negb (selected r)
                               || may_write who UPDATE t
                                    (assign (schema t) vals r))
                     (rows db t)
          then lift (update t vals selected db)
          else Denied
      end
  | Delete t where_ =>
      lift (delete_from (S (List.length all_tables)) t
              (fun r => where_ r && within_reach who DELETE t r) db)
  end.

Definition state_after_as (who : role) (e : env) (s : statement)
    (db : database) : database :=
  match exec_as who e s db with
  | Done db' => db'
  | Failed _ | Denied => db
  end.

(** A session: statements issued one after the other, each by some role. *)
Definition run_as (steps : list (role * env * statement)) (db : database)
    : database :=
  fold_left (fun db '(who, e, s) => state_after_as who e s db) steps db.

End Roles.

(** ** The client bootstrap without fallback constants

    The second text of the module, kept after the migration: the two values
    come from [import.meta.env] alone. *)

Module BootstrapEnvOnly.
Import Bootstrap.

Section Module_body.

Variable SupabaseClient : Type.
Variable createClient :
  js_value -> js_value -> client_options -> completion SupabaseClient.

Definition supabaseUrl (env : import_meta_env) : js_value :=
  VITE_SUPABASE_URL env.

Definition supabaseAnonKey (env : import_meta_env) : js_value :=
  VITE_SUPABASE_ANON_KEY env.

Definition load (env : import_meta_env) : outcome SupabaseClient :=
  if negb (truthy (supabaseUrl env)) || negb (truthy (supabaseAnonKey env))
  then
    {| console := [
         {| label := "Environment variables:";
            properties := [
              ("VITE_SUPABASE_URL", supabaseUrl env);
              ("VITE_SUPABASE_ANON_KEY",
               js_string (if truthy (supabaseAnonKey env)
                          then "exists" else "missing")) ] |} ];
       completed :=
         Throw "Missing Supabase environment variables. Please restart the dev server." |}
  else
    {| console := [];
       completed :=
         createClient (supabaseUrl env) (supabaseAnonKey env)
           {| auth := {| autoRefreshToken := false;
                         persistSession := false;
                         detectSessionInUrl := false |} |} |}.

End Module_body.

End BootstrapEnvOnly.

(** * Properties *)

(** ** Values, text output and assignment casts *)

Module SqlFacts.
Import Sql.

(** *** Text made of plain ASCII characters is valid *)

Lemma plain_valid (s : string) : plain_string s = true -> valid_text s = true.
Proof.
  unfold plain_string, valid_text.
  induction (list_ascii_of_string s) as [|c l IH]; simpl; [reflexivity |].
  intros H. apply andb_prop in H. destruct H as [Hc Hl].
  unfold plain in Hc. apply andb_prop in Hc. destruct Hc as [H1 H2].
  destruct (N.eqb_spec (N_of_ascii c) 0) as [E |].
  - rewrite E in H1. discriminate.
  - rewrite H2. auto.
Qed.

Lemma plain_app (a b : string) :
  plain_string (a ++ b) = plain_string a && plain_string b.
Proof.
  unfold plain_string. induction a as [|c a IH]; simpl; [reflexivity |].
  rewrite IH. apply andb_assoc.
Qed.

Lemma plain_of_list (l : list ascii) :
  plain_string (string_of_list_ascii l) = forallb plain l.
Proof.
  unfold plain_string. rewrite list_ascii_of_string_of_list_ascii.
  reflexivity.
Qed.

Lemma plain_digits (d : Decimal.uint) :
  plain_string (NilEmpty.string_of_uint d) = true.
Proof. induction d; simpl; auto. Qed.

Lemma plain_decimal (n : N) : plain_string (decimal n) = true.
Proof.
  unfold decimal, NilZero.string_of_uint.
  destruct (N.to_uint n); try reflexivity; apply plain_digits.
Qed.

Lemma plain_zero_pad (w : nat) (n : N) : plain_string (zero_pad w n) = true.
Proof.
  unfold zero_pad. rewrite plain_app, plain_of_list, plain_decimal.
  rewrite andb_true_r.
  induction (w - String.length (decimal n))%nat; simpl; auto.
Qed.

Lemma plain_hex_digit (d : N) : plain (hex_digit d) = true.
Proof.
  destruct d as [|p]; [reflexivity |].
  do 4 (destruct p as [p | p |]; try reflexivity).
Qed.

Lemma plain_hex_run (u : N) (top len : nat) :
  forallb plain (hex_run u top len) = true.
Proof.
  revert top. induction len as [|len IH]; intros top; [reflexivity |].
  cbn [hex_run forallb]. rewrite plain_hex_digit, IH. reflexivity.
Qed.

Lemma plain_uuid_out (u : N) : plain_string (uuid_out u) = true.
Proof.
  unfold uuid_out. rewrite plain_of_list.
  assert (Hrun : forall top len c, In c (hex_run u top len) -> plain c = true).
  { intros top len c Hc. pose proof (plain_hex_run u top len) as H.
    rewrite forallb_forall in H. auto. }
  apply forallb_forall. intros c Hc.
  repeat (apply in_app_or in Hc;
          destruct Hc as [Hc | [<- | Hc]];
          [eapply Hrun; eassumption | reflexivity |]).
  eapply Hrun; eassumption.
Qed.

Lemma plain_int_out (z : Z) : plain_string (int_out z) = true.
Proof.
  unfold int_out. rewrite plain_app, plain_decimal.
  destruct (z <? 0); reflexivity.
Qed.

Lemma plain_numeric_out (m : Z) (s : N) : plain_string (numeric_out m s) = true.
Proof.
  unfold numeric_out. rewrite !plain_app, plain_decimal.
  assert (Hsign : plain_string (if m <? 0 then "-" else "") = true)
    by (destruct (m <? 0); reflexivity).
  assert (Hfrac : plain_string
                    (if (s =? 0)%N then ""
                     else "." ++ zero_pad (N.to_nat s)
                                          (Z.abs_N m mod 10 ^ s)%N) = true).
  { destruct (s =? 0)%N; [reflexivity |].
    rewrite plain_app, plain_zero_pad. reflexivity. }
  rewrite Hsign, Hfrac. reflexivity.
Qed.

Lemma plain_bool_out (b : bool) : plain_string (bool_out b) = true.
Proof. destruct b; reflexivity. Qed.

Lemma drop_zeros_incl (l : list ascii) (c : ascii) :
  In c (drop_zeros l) -> In c l.
Proof.
  induction l as [|a l IH]; simpl; [tauto |].
  destruct (Ascii.eqb_spec a "0"%char) as [-> | Hne].
  - auto.
  - assert (H : drop_zeros (a :: l) = a :: l).
    { simpl. destruct a as [[] [] [] [] [] [] [] []]; try reflexivity.
      destruct Hne. reflexivity. }
    simpl in H. rewrite H. tauto.
Qed.

Lemma plain_fraction_out (micros : N) : plain_string (fraction_out micros) = true.
Proof.
  unfold fraction_out. destruct (micros =? 0)%N; [reflexivity |].
  rewrite plain_app, plain_of_list. simpl.
  apply forallb_forall. intros c Hc.
  apply in_rev, drop_zeros_incl, in_rev in Hc.
  pose proof (plain_zero_pad 6 micros) as H. unfold plain_string in H.
  rewrite forallb_forall in H. apply H, Hc.
Qed.

Lemma plain_timestamptz_out (t : Z) : plain_string (timestamptz_out t) = true.
Proof.
  unfold timestamptz_out.
  destruct (civil_from_days (t / 86400000000)) as [[y m] d].
  rewrite !plain_app, !plain_zero_pad, !plain_fraction_out.
  destruct (0 <? y); reflexivity.
Qed.

Lemma valid_text_out (v : value) :
  well_formed v = true -> valid_text (text_out v) = true.
Proof.
  destruct v; simpl; intros H; try exact H; try (apply plain_valid).
  - apply plain_uuid_out.
  - apply plain_bool_out.
  - apply plain_timestamptz_out.
  - apply plain_numeric_out.
  - apply plain_int_out.
Qed.

(** *** What a cast stores *)

(** A value of the column's type is stored as it is. *)
Lemma assign_cast_typed (v : value) (ty : sqltype) :
  has_type v ty = true -> assign_cast v ty = Some v.
Proof.
  unfold assign_cast.
  destruct v, ty; simpl; intros H; try discriminate; rewrite ?H; simpl;
    try reflexivity.
Qed.

(** What is stored is of the column's type. *)
Lemma assign_cast_has_type (v v' : value) (ty : sqltype) :
  assign_cast v ty = Some v' -> has_type v' ty = true.
Proof.
  unfold assign_cast.
  destruct (well_formed v) eqn:Hwf; [| discriminate].
  pose proof (valid_text_out v Hwf) as Htext.
  destruct v, ty; simpl in *; try discriminate;
    repeat match goal with
           | |- context [if ?b then _ else _] => destruct b eqn:?
           end;
    try discriminate; intros [= <-]; simpl; assumption || reflexivity.
Qed.

(** *** Text output never reads as a status *)











End SqlFacts.

(** ** Row-level-security policies *)

Module RlsFacts.
Import Sql Schema Rls.

Lemma command_eqb_eq (a b : command) : command_eqb a b = true <-> a = b.
Proof. destruct a, b; simpl; split; congruence. Qed.

Lemma table_eqb_eq (a b : table) : table_eqb a b = true <-> a = b.
Proof. destruct a, b; simpl; split; congruence. Qed.

(** C1, as stated, fails: no policy lets a caller delete from
    [catalog_users] either. *)
Lemma delete_on_catalog_users_not_permitted :
  permitted anon DELETE catalog_users [] [] = false
  /\ permitted authenticated DELETE catalog_users [] [] = false.
Proof. split; reflexivity. Qed.

(** C1 (amended): for both roles and whatever the rows, every command is
    permitted on every table except DELETE on [verification_codes] and
    DELETE on [catalog_users]; in particular all four commands are permitted
    on [catalog_parts] and on [cart]. *)
Theorem policies_permit_all_but_two_deletes
    (r : role) (c : command) (t : table) (old new : row) :
  permitted r c t old new
  = negb (command_eqb c DELETE
          && (table_eqb t verification_codes || table_eqb t catalog_users)).
Proof. destruct r, c, t; reflexivity. Qed.

End RlsFacts.

(** ** Client bootstrap *)

Module BootstrapFacts.
Import Bootstrap.

Section Module_body.

Variables SUPABASE_URL SUPABASE_ANON_KEY : js_value.
Variable SupabaseClient : Type.
Variable createClient :
  js_value -> js_value -> client_options -> completion SupabaseClient.

Local Abbreviation url := (supabaseUrl SUPABASE_URL).
Local Abbreviation key := (supabaseAnonKey SUPABASE_ANON_KEY).
Local Abbreviation load_module :=
  (load SUPABASE_URL SUPABASE_ANON_KEY SupabaseClient createClient).
Local Abbreviation stateless :=
  {| auth := {| autoRefreshToken := false;
                persistSession := false;
                detectSessionInUrl := false |} |}.

(** The two branches of the module. *)
Lemma load_cases (env : import_meta_env) :
  (truthy (url env) = true /\ truthy (key env) = true
   /\ load_module env
      = {| console := [];
           completed := createClient (url env) (key env) stateless |})
  \/ ((truthy (url env) = false \/ truthy (key env) = false)
      /\ console (load_module env) <> []
      /\ completed (load_module env) = Throw missing_message).
Proof.
  unfold load.
  destruct (truthy (url env)) eqn:Hu, (truthy (key env)) eqn:Hk; simpl;
    first [left; repeat split; reflexivity
          | right; repeat split; auto; discriminate].
Qed.

(** C2 (amended): when the endpoint URL or the anonymous key is absent
    (falsy after the fallback constant has been tried), evaluation ends in a
    thrown error with the fixed message and exports no handle. It is the
    only error the module raises itself: any other thrown error is one that
    the call of [createClient] threw, with both values present. *)
Theorem missing_configuration_throws (env : import_meta_env) :
  (truthy (url env) = false \/ truthy (key env) = false ->
   completed (load_module env) = Throw missing_message
   /\ forall h, completed (load_module env) <> Export h)
  /\ (forall m, completed (load_module env) = Throw m ->
      (m = "Missing Supabase environment variables. Please restart the dev server."%string
       /\ (truthy (url env) = false \/ truthy (key env) = false))
      \/ (truthy (url env) = true /\ truthy (key env) = true
          /\ createClient (url env) (key env) stateless = Throw m)).
Proof.
  destruct (load_cases env) as [(Hu & Hk & Hload) | (Habs & _ & Hthrow)];
    split.
  - intros [H | H]; congruence.
  - rewrite Hload. simpl. intros m Hm. right. auto.
  - intros _. rewrite Hthrow. split; [reflexivity | discriminate].
  - rewrite Hthrow. intros m [= <-]. left. split; [reflexivity | assumption].
Qed.

(** C8 (amended): with both configuration values present, the module logs
    nothing, raises no error of its own and ends as the call of
    [createClient] ends, on the two values and the options with token
    refresh, session persistence and URL session detection all switched
    off: it exports the handle the call returns, and throws only what the
    call throws. *)
Theorem present_configuration_exports_client (env : import_meta_env) :
  truthy (url env) = true ->
  truthy (key env) = true ->
  load_module env
  = {| console := [];
       completed := createClient (url env) (key env) stateless |}
  /\ (forall h, createClient (url env) (key env) stateless = Export h ->
                completed (load_module env) = Export h)
  /\ (forall m, completed (load_module env) = Throw m ->
                createClient (url env) (key env) stateless = Throw m).
Proof.
  intros Hu Hk.
  assert (H : load_module env
              = {| console := [];
                   completed := createClient (url env) (key env) stateless |}).
  { unfold load. rewrite Hu, Hk. reflexivity. }
  rewrite H. simpl. auto.
Qed.

(** C9 (amended): the log made before the throw shows the endpoint URL as it
    is and, for the anonymous key, only the word [exists] or [missing]; so
    two failing configurations with the same effective URL and the same
    presence of the key log the same thing. *)
Theorem log_hides_anon_key (env1 env2 : import_meta_env) :
  url env1 = url env2 ->
  truthy (key env1) = truthy (key env2) ->
  (truthy (url env1) = false \/ truthy (key env1) = false) ->
  console (load_module env1)
  = [ {| label := "Environment variables:";
         properties := [
           ("VITE_SUPABASE_URL", url env1);
           ("VITE_SUPABASE_ANON_KEY",
            js_string (if truthy (key env1) then "exists" else "missing")) ] |} ]
  /\ console (load_module env1) = console (load_module env2).
Proof.
  intros Hu Hk Habs. unfold load. rewrite <- Hu, <- Hk.
  destruct (truthy (url env1)) eqn:Hu1, (truthy (key env1)) eqn:Hk1; simpl;
    try (split; reflexivity).
  destruct Habs; discriminate.
Qed.

End Module_body.

(** C2, as stated, fails in its last part: with both values present, the
    URL being one the constructor refuses, evaluation ends in a thrown
    error that is not the fixed message. *)
Lemma refused_url_is_another_failure :
  let env := {| VITE_SUPABASE_URL := js_string "not-a-url";
                VITE_SUPABASE_ANON_KEY := js_string "anon-key" |} in
  let run := load undefined undefined recorded_client record_client in
  truthy (supabaseUrl undefined env) = true
  /\ truthy (supabaseAnonKey undefined env) = true
  /\ completed (run env)
     = Throw "Invalid supabaseUrl: Must be a valid HTTP or HTTPS URL."
  /\ completed (run env) <> Throw missing_message.
Proof.
  cbv zeta. repeat split; try reflexivity. vm_compute. discriminate.
Qed.

Lemma missing_configuration_throws_witness :
  completed (load undefined (js_string "anon-key") recorded_client record_client
               {| VITE_SUPABASE_URL := js_string "";
                  VITE_SUPABASE_ANON_KEY := undefined |})
  = Throw missing_message.
Proof.
  apply (missing_configuration_throws undefined (js_string "anon-key")
           recorded_client record_client
           {| VITE_SUPABASE_URL := js_string "";
              VITE_SUPABASE_ANON_KEY := undefined |}).
  left. reflexivity.
Defined.

(** C8, as stated, fails: both values are present, and evaluation exports
    no handle, because the constructor throws on the URL it is given. *)
Lemma present_configuration_may_throw :
  let env := {| VITE_SUPABASE_URL := js_string "localhost:54321";
                VITE_SUPABASE_ANON_KEY := js_string "anon-key" |} in
  let run := load undefined undefined recorded_client record_client in
  truthy (supabaseUrl undefined env) = true
  /\ truthy (supabaseAnonKey undefined env) = true
  /\ console (run env) = []
  /\ ~ exists h, completed (run env) = Export h.
Proof.
  cbv zeta. repeat split; try reflexivity. vm_compute.
  intros [h H]. discriminate.
Qed.

Lemma present_configuration_exports_client_witness :
  load undefined (js_string "anon-key") recorded_client record_client
    {| VITE_SUPABASE_URL := js_string "https://project.supabase.co";
       VITE_SUPABASE_ANON_KEY := undefined |}
  = {| console := [];
       completed :=
         Export {| client_url := js_string "https://project.supabase.co";
                   client_key := js_string "anon-key";
                   client_options_ :=
                     {| auth := {| autoRefreshToken := false;
                                   persistSession := false;
                                   detectSessionInUrl := false |} |} |} |}.
Proof.
  apply (present_configuration_exports_client undefined (js_string "anon-key")
           recorded_client record_client
           {| VITE_SUPABASE_URL := js_string "https://project.supabase.co";
              VITE_SUPABASE_ANON_KEY := undefined |});
    reflexivity.
Defined.

(** C9, as stated, fails for the endpoint URL: two configurations in which
    both values have the same presence (URL set, key missing) fail with
    different logs, because the URL itself is printed. *)
Lemma log_shows_endpoint_url :
  let env1 := {| VITE_SUPABASE_URL := js_string "https://one.supabase.co";
                 VITE_SUPABASE_ANON_KEY := undefined |} in
  let env2 := {| VITE_SUPABASE_URL := js_string "https://two.supabase.co";
                 VITE_SUPABASE_ANON_KEY := undefined |} in
  let run := load undefined undefined recorded_client record_client in
  truthy (supabaseUrl undefined env1) = truthy (supabaseUrl undefined env2)
  /\ truthy (supabaseAnonKey undefined env1)
     = truthy (supabaseAnonKey undefined env2)
  /\ completed (run env1) = Throw missing_message
  /\ completed (run env2) = Throw missing_message
  /\ console (run env1) <> console (run env2).
Proof.
  cbv zeta. repeat split; try reflexivity. vm_compute. discriminate.
Qed.

Lemma log_hides_anon_key_witness :
  let env1 := {| VITE_SUPABASE_URL := undefined;
                 VITE_SUPABASE_ANON_KEY := js_string "secret-one" |} in
  let env2 := {| VITE_SUPABASE_URL := undefined;
                 VITE_SUPABASE_ANON_KEY := js_string "secret-two" |} in
  let run := load undefined undefined recorded_client record_client in
  console (run env1) = console (run env2).
Proof.
  cbv zeta.
  apply (log_hides_anon_key undefined undefined recorded_client record_client
           {| VITE_SUPABASE_URL := undefined;
              VITE_SUPABASE_ANON_KEY := js_string "secret-one" |}
           {| VITE_SUPABASE_URL := undefined;
              VITE_SUPABASE_ANON_KEY := js_string "secret-two" |});
    [reflexivity | reflexivity | left; reflexivity].
Defined.

End BootstrapFacts.

(** ** Statements against the schema *)

Module EngineFacts.
Import Sql Schema Engine.
Local Open Scope list_scope.

Arguments assigned : simpl never.

(** *** Tables, guards *)

Lemma table_eq_dec (a b : table) : {a = b} + {a <> b}.
Proof. decide equality. Defined.

Lemma rows_set_rows (db : database) (t : table) (rs : list row) :
  rows (set_rows db t rs) t = rs.
Proof. destruct t; reflexivity. Qed.

Lemma rows_set_rows_other (db : database) (t t' : table) (rs : list row) :
  t' <> t -> rows (set_rows db t rs) t' = rows db t'.
Proof. destruct t, t'; intros H; try reflexivity; congruence. Qed.

Lemma guard_ok (o : option error) (k : result) (db' : database) :
  guard o k = Ok db' <-> o = None /\ k = Ok db'.
Proof.
  destruct o; simpl; split; try tauto; try discriminate.
  intros [H _]; discriminate.
Qed.

Lemma guard_rejected (o : option error) (k : result) :
  (exists err, k = Rejected err) -> exists err, guard o k = Rejected err.
Proof. destruct o; simpl; eauto. Qed.

Lemma first_error_none {A : Type} (f : A -> option error) (l : list A) :
  first_error f l = None <-> forall a, In a l -> f a = None.
Proof.
  induction l as [|a l IH]; simpl.
  - tauto.
  - destruct (f a) eqn:Hfa.
    + split; [discriminate |]. intros H. rewrite <- Hfa. apply H. left. reflexivity.
    + rewrite IH. split.
      * intros H b [<- | Hb]; auto.
      * auto.
Qed.

(** What an accepted INSERT has checked and done. *)
Lemma insert_ok (e : env) (t : table) (vals : list (string * value))
    (db db' : database) :
  insert e t vals db = Ok db' <->
  let r := build_row e (schema t) vals in
  check_request (schema t) vals = None
  /\ check_not_null (schema t) r = None
  /\ check_checks (schema t) r = None
  /\ check_unique (schema t) (rows db t) r = None
  /\ check_references (set_rows db t (rows db t ++ [r])) (schema t) r = None
  /\ db' = set_rows db t (rows db t ++ [r]).
Proof.
  unfold insert. cbv zeta. rewrite !guard_ok.
  split; [intros (? & ? & ? & ? & ? & [= <-]) | intros (? & ? & ? & ? & ? & ->)];
    auto 10.
Qed.

(** A rejected statement leaves the state as it was. *)
Lemma rejected_state_after (e : env) (s : statement) (db : database) (err : error) :
  exec e s db = Rejected err -> state_after e s db = db.
Proof. unfold state_after. intros ->. reflexivity. Qed.

Lemma reachable_state_after (e : env) (s : statement) (db : database) :
  reachable db -> reachable (state_after e s db).
Proof.
  intros H. unfold state_after.
  destruct (exec e s db) eqn:Hex; [| assumption].
  eapply reachable_exec; eassumption.
Qed.

(** *** DELETE on this schema *)

(** The cascade never runs out of depth and no reference blocks a DELETE:
    the statement always succeeds, with this result. *)
Lemma delete_closed_form (t : table) (w : row -> bool) (db : database) :
  delete_from (S (List.length all_tables)) t w db
  = Ok match t with
       | catalog_users =>
           set_rows
             (set_rows db catalog_users
                (filter (fun r => negb (w r)) (rows db catalog_users)))
             cart
             (filter (fun r' => negb (refers_to "user_id" "id"
                                        (filter w (rows db catalog_users)) r'))
                     (rows db cart))
       | catalog_parts =>
           set_rows
             (set_rows db catalog_parts
                (filter (fun r => negb (w r)) (rows db catalog_parts)))
             cart
             (filter (fun r' => negb (refers_to "part_id" "id"
                                        (filter w (rows db catalog_parts)) r'))
                     (rows db cart))
       | _ => set_rows db t (filter (fun r => negb (w r)) (rows db t))
       end.
Proof. destruct t; reflexivity. Qed.

Lemma delete_filters (t : table) (w : row -> bool) (db db' : database) :
  delete_from (S (List.length all_tables)) t w db = Ok db' ->
  forall t', exists f, rows db' t' = filter f (rows db t').
Proof.
  rewrite delete_closed_form. intros [= <-] t'.
  assert (Hid : forall l : list row, l = filter (fun _ => true) l).
  { induction l; simpl; congruence. }
  destruct t, t'; simpl; eauto.
Qed.

Lemma is_true_eq_uuid (v : value) (u : N) :
  is_true (sql_eq v (VUuid u)) = true <-> v = VUuid u.
Proof.
  destruct v; simpl; split; try discriminate.
  - destruct (N.eqb_spec u0 u); [congruence | discriminate].
  - intros [= ->]. rewrite N.eqb_refl. reflexivity.
Qed.

(** Rows that refer to the rows [WHERE id = u], when there is one, are the
    rows whose reference equals [u]. *)
Lemma refers_to_where_id (c : string) (u : N) (rs : list row) (r' : row) :
  (exists r, In r rs /\ get "id" r = VUuid u) ->
  refers_to c "id" (filter (where_id u) rs) r'
  = is_true (sql_eq (get c r') (VUuid u)).
Proof.
  intros (r0 & Hin & Hid). unfold refers_to.
  destruct (is_true (sql_eq (get c r') (VUuid u))) eqn:H.
  - apply existsb_exists. exists r0. split.
    + apply filter_In. split; [assumption |].
      apply is_true_eq_uuid. assumption.
    + rewrite Hid. assumption.
  - destruct (existsb _ _) eqn:Hex; [| reflexivity].
    apply existsb_exists in Hex. destruct Hex as (r & Hr & Heq).
    apply filter_In in Hr. destruct Hr as [_ Hr].
    apply is_true_eq_uuid in Hr. rewrite Hr in Heq. congruence.
Qed.

(** C3: deleting the user with id [u] removes that row and exactly the cart
    rows whose [user_id] is [u], and nothing from the other two tables;
    deleting a part does the same through [part_id]; deleting from [cart] or
    [verification_codes] touches that table alone. Every such DELETE is
    accepted. *)
Theorem delete_cascades_to_cart_only (e : env) (db : database) :
  (forall u,
      (exists r, In r (rows db catalog_users) /\ get "id" r = VUuid u) ->
      exec e (Delete catalog_users (where_id u)) db
      = Ok {| tbl_catalog_users :=
                filter (fun r => negb (where_id u r)) (tbl_catalog_users db);
              tbl_catalog_parts := tbl_catalog_parts db;
              tbl_cart :=
                filter (fun r => negb (is_true (sql_eq (get "user_id" r) (VUuid u))))
                       (tbl_cart db);
              tbl_verification_codes := tbl_verification_codes db |})
  /\ (forall p,
      (exists r, In r (rows db catalog_parts) /\ get "id" r = VUuid p) ->
      exec e (Delete catalog_parts (where_id p)) db
      = Ok {| tbl_catalog_users := tbl_catalog_users db;
              tbl_catalog_parts :=
                filter (fun r => negb (where_id p r)) (tbl_catalog_parts db);
              tbl_cart :=
                filter (fun r => negb (is_true (sql_eq (get "part_id" r) (VUuid p))))
                       (tbl_cart db);
              tbl_verification_codes := tbl_verification_codes db |})
  /\ (forall w,
      exec e (Delete cart w) db
      = Ok {| tbl_catalog_users := tbl_catalog_users db;
              tbl_catalog_parts := tbl_catalog_parts db;
              tbl_cart := filter (fun r => negb (w r)) (tbl_cart db);
              tbl_verification_codes := tbl_verification_codes db |})
  /\ (forall w,
      exec e (Delete verification_codes w) db
      = Ok {| tbl_catalog_users := tbl_catalog_users db;
              tbl_catalog_parts := tbl_catalog_parts db;
              tbl_cart := tbl_cart db;
              tbl_verification_codes :=
                filter (fun r => negb (w r)) (tbl_verification_codes db) |}).
Proof.
  repeat split; intros; unfold exec; rewrite delete_closed_form;
    try reflexivity; simpl; do 2 f_equal;
    apply filter_ext; intros r'; f_equal;
    apply refers_to_where_id; assumption.
Qed.

(** *** Requests and the rows they propose *)

Lemma first_of_none (checks : list (option error)) :
  first_of checks = None <-> forall o, In o checks -> o = None.
Proof. unfold first_of. apply first_error_none. Qed.

Lemma check_request_none (td : table_decl) (vals : list (string * value)) :
  check_request td vals = None <->
  check_targets td [] vals = None
  /\ check_types td vals = None
  /\ check_casts td vals = None.
Proof.
  unfold check_request. rewrite first_of_none. simpl. split.
  - intros H. repeat split; apply H; auto.
  - intros (H1 & H2 & H3) o [<- | [<- | [<- | []]]]; assumption.
Qed.

Lemma check_assignments_none (td : table_decl) (vals : list (string * value)) :
  check_assignments td vals = None <->
  check_types td vals = None
  /\ check_targets td [] vals = None
  /\ check_casts td vals = None.
Proof.
  unfold check_assignments. rewrite first_of_none. simpl. split.
  - intros H. repeat split; apply H; auto.
  - intros (H1 & H2 & H3) o [<- | [<- | [<- | []]]]; assumption.
Qed.

(** The two checks accept the same lists; they differ in the error they
    report first. *)
Lemma check_assignments_request (td : table_decl)
    (vals : list (string * value)) :
  check_assignments td vals = None <-> check_request td vals = None.
Proof. rewrite check_assignments_none, check_request_none. tauto. Qed.

(** Once the request is accepted, the cast of each given value succeeds. *)
Lemma request_casts (td : table_decl) (vals : list (string * value))
    (cd : column) (v : value) :
  check_request td vals = None ->
  In cd (columns td) ->
  assigned (cname cd) vals = Some v ->
  assign_cast v (ctype cd) = Some (stored v (ctype cd)).
Proof.
  intros Hreq Hcd Hv. apply check_request_none in Hreq.
  destruct Hreq as (_ & _ & Hc). unfold check_casts in Hc.
  pose proof (proj1 (first_error_none _ _) Hc cd Hcd) as H. simpl in H.
  rewrite Hv in H. unfold stored.
  destruct (assign_cast v (ctype cd)); [reflexivity | discriminate].
Qed.

Lemma stored_has_type (v : value) (ty : sqltype) :
  has_type (stored v ty) ty = true.
Proof.
  unfold stored. destruct (assign_cast v ty) eqn:H; [| reflexivity].
  eapply SqlFacts.assign_cast_has_type, H.
Qed.

Lemma stored_typed (v : value) (ty : sqltype) :
  has_type v ty = true -> stored v ty = v.
Proof.
  intros H. unfold stored. rewrite (SqlFacts.assign_cast_typed v ty H).
  reflexivity.
Qed.

Lemma column_names_distinct (t : table) :
  NoDup (map cname (columns (schema t))).
Proof.
  destruct t; cbn;
    repeat (constructor; [cbn; intuition discriminate |]); constructor.
Qed.

Lemma get_map_columns (f : column -> value) (cols : list column) (cd : column) :
  NoDup (map cname cols) ->
  In cd cols ->
  get (cname cd) (map (fun cd' => (cname cd', f cd')) cols) = f cd.
Proof.
  induction cols as [|a cols IH]; simpl; [tauto |].
  intros Hnd Hin. inversion Hnd as [| ? ? Hnotin Hnd']; subst.
  unfold get. simpl.
  destruct (String.eqb_spec (cname a) (cname cd)) as [Heq | Hne].
  - destruct Hin as [-> | Hin]; [reflexivity |].
    destruct Hnotin. rewrite Heq. apply in_map, Hin.
  - destruct Hin as [-> | Hin]; [congruence |].
    apply IH; assumption.
Qed.

Lemma get_build_row (e : env) (t : table) (vals : list (string * value))
    (cd : column) :
  In cd (columns (schema t)) ->
  get (cname cd) (build_row e (schema t) vals)
  = match assigned (cname cd) vals with
    | Some v => stored v (ctype cd)
    | None =>
        match default_of cd with
        | Some d => eval_default e d
        | None => VNull
        end
    end.
Proof.
  intros Hcd.
  exact (get_map_columns
           (fun cd => match assigned (cname cd) vals with
                      | Some v => stored v (ctype cd)
                      | None =>
                          match default_of cd with
                          | Some d => eval_default e d
                          | None => VNull
                          end
                      end)
           _ cd (column_names_distinct t) Hcd).
Qed.

Lemma get_assign (t : table) (vals : list (string * value)) (r : row)
    (cd : column) :
  In cd (columns (schema t)) ->
  get (cname cd) (assign (schema t) vals r)
  = match assigned (cname cd) vals with
    | Some v => stored v (ctype cd)
    | None => get (cname cd) r
    end.
Proof.
  intros Hcd.
  exact (get_map_columns
           (fun cd => match assigned (cname cd) vals with
                      | Some v => stored v (ctype cd)
                      | None => get (cname cd) r
                      end)
           _ cd (column_names_distinct t) Hcd).
Qed.

(** Every DEFAULT of the migration is of the type of its column. *)
Lemma default_typed (e : env) (t : table) (cd : column) :
  In cd (columns (schema t)) ->
  has_type match default_of cd with
           | Some d => eval_default e d
           | None => VNull
           end (ctype cd) = true.
Proof.
  intros H. destruct t; cbn in H;
    repeat (destruct H as [<- | H]); try contradiction;
    try reflexivity;
    first [apply gen_random_uuid_valid | apply now_valid].
Qed.

(** What an accepted UPDATE has checked and done. *)
Lemma update_ok (t : table) (vals : list (string * value)) (w : row -> bool)
    (db db' : database) :
  update t vals w db = Ok db' <->
  check_assignments (schema t) vals = None
  /\ update_rows t vals w db [] (rows db t) = Ok db'
  /\ check_after_update t vals w db db' = None.
Proof.
  unfold update. rewrite guard_ok.
  destruct (update_rows t vals w db [] (rows db t)) as [db1 |]; split.
  - rewrite guard_ok. intros (H1 & H2 & [= <-]). auto.
  - intros (H1 & [= <-] & H3). rewrite guard_ok. auto.
  - intros [_ H]. discriminate.
  - intros (_ & H & _). discriminate.
Qed.

Lemma update_rows_cons (t : table) (vals : list (string * value))
    (w : row -> bool) (db : database) (done : list row) (r : row)
    (rest : list row) :
  update_rows t vals w db done (r :: rest)
  = if w r then
      guard (check_not_null (schema t) (assign (schema t) vals r))
        (guard (check_checks (schema t) (assign (schema t) vals r))
           (guard (check_unique (schema t) (done ++ rest)
                     (assign (schema t) vals r))
              (update_rows t vals w db
                 (done ++ [assign (schema t) vals r]) rest)))
    else update_rows t vals w db (done ++ [r]) rest.
Proof. reflexivity. Qed.

(** The rows an accepted UPDATE leaves: the selected ones rewritten, in
    place. *)
Lemma update_rows_result (t : table) (vals : list (string * value))
    (w : row -> bool) (db : database) :
  forall todo done db',
    update_rows t vals w db done todo = Ok db' ->
    db' = set_rows db t
            (done ++ map (fun r => if w r then assign (schema t) vals r else r)
                         todo).
Proof.
  induction todo as [|r rest IH]; intros done db' H.
  - simpl in H. injection H as <-. simpl. rewrite app_nil_r. reflexivity.
  - rewrite update_rows_cons in H. simpl map. destruct (w r).
    + rewrite !guard_ok in H. destruct H as (_ & _ & _ & H).
      apply IH in H. rewrite <- app_assoc in H. exact H.
    + apply IH in H. rewrite <- app_assoc in H. exact H.
Qed.

Lemma update_ok_rows (t : table) (vals : list (string * value))
    (w : row -> bool) (db db' : database) :
  update t vals w db = Ok db' ->
  db' = set_rows db t
          (map (fun r => if w r then assign (schema t) vals r else r)
               (rows db t)).
Proof.
  intros H. apply update_ok in H. destruct H as (_ & H & _).
  apply update_rows_result in H. exact H.
Qed.

(** *** Invariants of the reachable states *)

Section Invariant.

(** A property of each table's rows that holds of the empty table and
    survives the three ways a statement changes a table. *)
Variable P : table -> list row -> Prop.

Hypothesis P_empty : forall t, P t [].

Hypothesis P_insert :
  forall e t vals rs,
    P t rs ->
    check_request (schema t) vals = None ->
    check_not_null (schema t) (build_row e (schema t) vals) = None ->
    check_checks (schema t) (build_row e (schema t) vals) = None ->
    check_unique (schema t) rs (build_row e (schema t) vals) = None ->
    P t (rs ++ [build_row e (schema t) vals]).

Hypothesis P_update :
  forall t vals done r rest,
    P t (done ++ r :: rest) ->
    check_assignments (schema t) vals = None ->
    check_not_null (schema t) (assign (schema t) vals r) = None ->
    check_checks (schema t) (assign (schema t) vals r) = None ->
    check_unique (schema t) (done ++ rest) (assign (schema t) vals r) = None ->
    P t (done ++ assign (schema t) vals r :: rest).

Hypothesis P_delete : forall t rs f, P t rs -> P t (filter f rs).

Lemma update_rows_preserves (t : table) (vals : list (string * value))
    (w : row -> bool) (db : database) :
  check_assignments (schema t) vals = None ->
  forall todo done db',
    P t (done ++ todo) ->
    update_rows t vals w db done todo = Ok db' ->
    exists rs, db' = set_rows db t rs /\ P t rs.
Proof.
  intros Hreq. induction todo as [|r rest IH]; intros done db' HP H.
  - simpl in H. injection H as <-. rewrite app_nil_r in HP. eauto.
  - rewrite update_rows_cons in H. destruct (w r).
    + rewrite !guard_ok in H.
      destruct H as (Hnn & Hck & Hun & H).
      apply IH in H; [assumption |].
      rewrite <- app_assoc. simpl. apply P_update; assumption.
    + apply IH in H; [assumption |].
      rewrite <- app_assoc. exact HP.
Qed.

Lemma exec_preserves (e : env) (s : statement) (db db' : database) :
  (forall t, P t (rows db t)) ->
  exec e s db = Ok db' ->
  forall t, P t (rows db' t).
Proof.
  intros HP H t'. destruct s as [t vals | t vals w | t w]; simpl in H.
  - apply insert_ok in H. cbv zeta in H.
    destruct H as (Hreq & Hnn & Hck & Hun & _ & ->).
    destruct (table_eq_dec t' t) as [-> | Hne].
    + rewrite rows_set_rows. apply P_insert; auto.
    + rewrite rows_set_rows_other by assumption. apply HP.
  - apply update_ok in H. destruct H as (Hreq & H & _).
    apply update_rows_preserves in H; [| assumption | apply HP].
    destruct H as (rs & -> & Hrs).
    destruct (table_eq_dec t' t) as [-> | Hne].
    + rewrite rows_set_rows. assumption.
    + rewrite rows_set_rows_other by assumption. apply HP.
  - destruct (delete_filters _ _ _ _ H t') as [f ->]. apply P_delete, HP.
Qed.

Lemma reachable_invariant (db : database) :
  reachable db -> forall t, P t (rows db t).
Proof.
  induction 1 as [| e s db db' _ IH H].
  - intros t. destruct t; apply P_empty.
  - eapply exec_preserves; eassumption.
Qed.

End Invariant.

(** *** Stored rows fit their table *)

Lemma typed_build_row (e : env) (t : table) (vals : list (string * value)) :
  typed (schema t) (build_row e (schema t) vals) = true.
Proof.
  unfold typed. apply forallb_forall. intros cd Hcd.
  rewrite (get_build_row e t vals cd Hcd).
  destruct (assigned (cname cd) vals).
  - apply stored_has_type.
  - apply (default_typed e t cd Hcd).
Qed.

Lemma typed_assign (t : table) (vals : list (string * value)) (r : row) :
  typed (schema t) r = true ->
  typed (schema t) (assign (schema t) vals r) = true.
Proof.
  unfold typed. rewrite !forallb_forall. intros Hold cd Hcd.
  rewrite (get_assign t vals r cd Hcd).
  destruct (assigned (cname cd) vals).
  - apply stored_has_type.
  - apply Hold, Hcd.
Qed.

Lemma row_ok_intro (t : table) (r : row) :
  typed (schema t) r = true ->
  check_not_null (schema t) r = None ->
  check_checks (schema t) r = None ->
  row_ok t r = true.
Proof. unfold row_ok. intros -> -> ->. reflexivity. Qed.

Lemma row_ok_typed (t : table) (r : row) :
  row_ok t r = true -> typed (schema t) r = true.
Proof.
  unfold row_ok. intros H.
  apply andb_prop in H. destruct H as [H _].
  apply andb_prop in H. tauto.
Qed.

(** In every reachable state every row of every table is typed and respects
    the NOT NULL and CHECK constraints of its table. *)
Lemma reachable_rows_ok (db : database) :
  reachable db ->
  forall t, Forall (fun r => row_ok t r = true) (rows db t).
Proof.
  apply reachable_invariant with
    (P := fun t rs => Forall (fun r => row_ok t r = true) rs).
  - intros t. constructor.
  - intros e t vals rs Hrs Hreq Hnn Hck _.
    apply Forall_app. split; [assumption |].
    constructor; [| constructor].
    apply row_ok_intro; auto using typed_build_row.
  - intros t vals done r rest Hrs Hreq Hnn Hck _.
    apply Forall_app in Hrs. destruct Hrs as [Hdone Hrest].
    inversion Hrest as [| ? ? Hr Hrest']; subst.
    apply Forall_app. split; [assumption |].
    constructor; [| assumption].
    apply row_ok_intro; auto using typed_assign, row_ok_typed.
  - intros t rs f Hrs. rewrite Forall_forall in *.
    intros r Hr. apply filter_In in Hr. apply Hrs, Hr.
Qed.

(** *** Unique keys *)

Lemma sql_eq_sym (a b : value) : sql_eq a b = sql_eq b a.
Proof.
  destruct a, b; simpl; try reflexivity; f_equal.
  - apply N.eqb_sym.
  - apply String.eqb_sym.
  - destruct b0, b; reflexivity.
  - apply Z.eqb_sym.
  - apply Z.eqb_sym.
  - apply Z.eqb_sym.
Qed.

Lemma same_key_sym (key : list string) (a b : row) :
  same_key key a b = same_key key b a.
Proof.
  unfold same_key. induction key as [|c key IH]; simpl; [reflexivity |].
  rewrite IH, (sql_eq_sym (get c a)). reflexivity.
Qed.

Lemma existsb_false {A : Type} (f : A -> bool) (l : list A) :
  existsb f l = false <-> forall a, In a l -> f a = false.
Proof.
  induction l as [|x l IH]; simpl.
  - tauto.
  - rewrite orb_false_iff, IH. split.
    + intros [Hx Hl] a [<- | Ha]; auto.
    + auto.
Qed.

Lemma check_unique_none (td : table_decl) (others : list row) (r : row) :
  check_unique td others r = None ->
  forall key a, In key (unique_keys td) -> In a others ->
                same_key key r a = false.
Proof.
  unfold check_unique. intros H key a Hkey Ha.
  pose proof (proj1 (first_error_none _ _) H key Hkey) as Hk. simpl in Hk.
  destruct (existsb (same_key key r) others) eqn:Hex; [discriminate |].
  exact (proj1 (existsb_false _ _) Hex a Ha).
Qed.

Section Pairs.

Variables (A : Type) (R : A -> A -> Prop).

Lemma pairs_cons (a : A) (l : list A) :
  ForallOrdPairs R (a :: l) <-> Forall (R a) l /\ ForallOrdPairs R l.
Proof.
  split.
  - intros H. inversion H; subst. tauto.
  - intros [H1 H2]. constructor; assumption.
Qed.

Lemma pairs_app (l1 l2 : list A) :
  ForallOrdPairs R (l1 ++ l2) <->
  ForallOrdPairs R l1 /\ ForallOrdPairs R l2
  /\ (forall a b, In a l1 -> In b l2 -> R a b).
Proof.
  induction l1 as [|x l1 IH]; simpl.
  - split.
    + intros H. repeat split; [constructor | assumption | tauto].
    + tauto.
  - rewrite !pairs_cons, IH, Forall_app, !Forall_forall. split.
    + intros ((Hx1 & Hx2) & H1 & H2 & H12). repeat split; auto.
      intros a b [<- | Ha] Hb; auto.
    + intros ((Hx1 & H1) & H2 & H12). repeat split; auto.
Qed.

Lemma pairs_filter (f : A -> bool) (l : list A) :
  ForallOrdPairs R l -> ForallOrdPairs R (filter f l).
Proof.
  induction l as [|x l IH]; simpl; [auto |].
  rewrite pairs_cons. intros [Hx Hl].
  destruct (f x); [| auto].
  apply pairs_cons. split; [| auto].
  rewrite Forall_forall in *. intros a Ha.
  apply filter_In in Ha. apply Hx, Ha.
Qed.

(** Among rows that pairwise satisfy [R], at most one can satisfy a test
    whose positives never satisfy [R] with one another. *)
Lemma pairs_at_most_one (q : A -> bool) (l : list A) :
  (forall a b, q a = true -> q b = true -> ~ R a b) ->
  ForallOrdPairs R l ->
  (List.length (filter q l) <= 1)%nat.
Proof.
  intros Hq. induction l as [|x l IH]; simpl; [lia |].
  rewrite pairs_cons. intros [Hx Hl].
  destruct (q x) eqn:Hqx; [| auto].
  assert (Hnone : filter q l = []).
  { destruct (filter q l) as [|y ys] eqn:Hf; [reflexivity |].
    assert (Hy : In y (filter q l)) by (rewrite Hf; left; reflexivity).
    apply filter_In in Hy. destruct Hy as [Hy Hqy].
    rewrite Forall_forall in Hx. destruct (Hq x y Hqx Hqy (Hx y Hy)). }
  rewrite Hnone. simpl. lia.
Qed.

End Pairs.

(** In every reachable state no two rows of a table collide on a PRIMARY
    KEY or UNIQUE key of that table. *)
Lemma reachable_unique (db : database) :
  reachable db ->
  forall t key, In key (unique_keys (schema t)) -> unique_on key (rows db t).
Proof.
  intros Hreach.
  apply (reachable_invariant
           (fun t rs => forall key, In key (unique_keys (schema t)) ->
                                    unique_on key rs));
    [ | | | | exact Hreach ].
  - intros t key _. constructor.
  - intros e t vals rs Hrs _ _ _ Hun key Hkey.
    apply pairs_app. repeat split.
    + apply Hrs, Hkey.
    + constructor; constructor.
    + intros a b Ha [<- | []]. rewrite same_key_sym.
      eapply check_unique_none; eassumption.
  - intros t vals done r rest Hrs _ _ _ Hun key Hkey.
    specialize (Hrs key Hkey).
    apply pairs_app in Hrs. destruct Hrs as (Hdone & Hrest & Hcross).
    apply pairs_cons in Hrest. destruct Hrest as [_ Hrest].
    pose proof (check_unique_none _ _ _ Hun key) as Hnew.
    apply pairs_app. repeat split.
    + assumption.
    + apply pairs_cons. split; [| assumption].
      apply Forall_forall. intros a Ha. apply Hnew; [assumption |].
      apply in_or_app. right. assumption.
    + intros a b Ha [<- | Hb].
      * rewrite same_key_sym. apply Hnew; [assumption |].
        apply in_or_app. left. assumption.
      * apply Hcross; [assumption | right; assumption].
  - intros t rs f Hrs key Hkey. apply pairs_filter, Hrs, Hkey.
Qed.

(** *** Values given for a column *)

(** A value of the kind of its column is stored unchanged, when it is
    stored at all. *)
Lemma assign_cast_same_kind (v w : value) (ty : sqltype) :
  same_kind v ty = true ->
  assign_cast v ty = Some w ->
  w = v /\ has_type v ty = true.
Proof.
  unfold assign_cast.
  destruct v, ty; simpl; try discriminate; intros _;
    repeat match goal with
           | |- context [if ?b then _ else _] => destruct b eqn:?
           end;
    try discriminate; intros [= <-]; split; try reflexivity;
    repeat match goal with
           | H : _ && _ = true |- _ => apply andb_prop in H; destruct H
           end;
    auto.
Qed.

Lemma given_same_kind (e : env) (t : table) (vals : list (string * value))
    (cd : column) (v : value) :
  In cd (columns (schema t)) ->
  check_request (schema t) vals = None ->
  assigned (cname cd) vals = Some v ->
  same_kind v (ctype cd) = true ->
  get (cname cd) (build_row e (schema t) vals) = v
  /\ has_type v (ctype cd) = true.
Proof.
  intros Hcd Hreq Hv Hkind.
  pose proof (request_casts _ _ cd v Hreq Hcd Hv) as Hcast.
  destruct (assign_cast_same_kind _ _ _ Hkind Hcast) as [Hsame Hty].
  rewrite (get_build_row e t vals cd Hcd), Hv. auto.
Qed.

(** *** The cart *)

Lemma assigned_cons (c c' : string) (v : value) (vals : list (string * value)) :
  assigned c ((c', v) :: vals)
  = if (c' =? c)%string then Some v else assigned c vals.
Proof. unfold assigned. simpl. destruct (c' =? c)%string; reflexivity. Qed.

Lemma cart_user_id_declared :
  In (col "user_id" UUID [REFERENCES catalog_users "id" CASCADE])
     (columns (schema cart)).
Proof. cbn. tauto. Qed.

Lemma cart_part_id_declared :
  In (col "part_id" UUID [REFERENCES catalog_parts "id" CASCADE])
     (columns (schema cart)).
Proof. cbn. tauto. Qed.

Lemma cart_quantity_declared :
  In (col "quantity" INTEGER [DEFAULT (lit (VInt 1)); CHECK (EGt "quantity" 0)])
     (columns (schema cart)).
Proof. cbn. tauto. Qed.

(** The one CHECK of the cart. *)
Lemma check_checks_cart (r : row) :
  check_checks (schema cart) r
  = if is_false (eval (EGt "quantity" 0) r)
    then Some (check_violation "quantity") else None.
Proof.
  unfold check_checks. cbn.
  destruct (is_false _); reflexivity.
Qed.

(** A proposed cart row for user [u] and part [p] collides with a stored
    one: some unique key is reported. *)
Lemma cart_collision (rs : list row) (new : row) (u p : N) :
  (exists r, In r rs /\ get "user_id" r = VUuid u /\ get "part_id" r = VUuid p) ->
  get "user_id" new = VUuid u ->
  get "part_id" new = VUuid p ->
  exists key, check_unique (schema cart) rs new = Some (unique_violation key).
Proof.
  intros (r & Hin & Hu & Hp) Hnu Hnp. unfold check_unique.
  change (unique_keys (schema cart)) with [["id"]; ["user_id"; "part_id"]].
  unfold first_error.
  destruct (existsb (same_key ["id"] new) rs); [eauto |].
  assert (Hex : existsb (same_key ["user_id"; "part_id"] new) rs = true).
  { apply existsb_exists. exists r. split; [assumption |].
    unfold same_key. cbn [forallb]. rewrite Hu, Hp, Hnu, Hnp. simpl.
    rewrite !N.eqb_refl. reflexivity. }
  rewrite Hex. eauto.
Qed.

(** C4: while the cart holds a row for user [u] and part [p], an INSERT of
    another row for the same pair is rejected and changes nothing, and when
    the row passes the checks that come first it is a unique key that is
    reported; so in every reachable state the cart holds at most one row per
    (user, part) pair. *)
Theorem cart_pair_unique (e : env) (db : database) :
  (forall vals u p,
      (exists r, In r (rows db cart)
                 /\ get "user_id" r = VUuid u /\ get "part_id" r = VUuid p) ->
      assigned "user_id" vals = Some (VUuid u) ->
      assigned "part_id" vals = Some (VUuid p) ->
      (exists err,
          exec e (Insert cart vals) db = Rejected err
          /\ (check_request (schema cart) vals = None ->
              check_not_null (schema cart) (build_row e (schema cart) vals) = None ->
              check_checks (schema cart) (build_row e (schema cart) vals) = None ->
              exists key, err = unique_violation key))
      /\ state_after e (Insert cart vals) db = db)
  /\ (reachable db ->
      forall u p, (List.length (cart_rows_of u p (rows db cart)) <= 1)%nat).
Proof.
  split.
  - intros vals u p Hrow Hu Hp.
    assert (H : exists err,
               exec e (Insert cart vals) db = Rejected err
               /\ (check_request (schema cart) vals = None ->
                   check_not_null (schema cart) (build_row e (schema cart) vals) = None ->
                   check_checks (schema cart) (build_row e (schema cart) vals) = None ->
                   exists key, err = unique_violation key)).
    { unfold exec, insert. cbv zeta.
      destruct (check_request (schema cart) vals) as [e1 |] eqn:Hreq;
        [exists e1; split; [reflexivity | discriminate] |].
      destruct (given_same_kind e cart vals _ _ cart_user_id_declared
                  Hreq Hu eq_refl) as [Hgu _].
      destruct (given_same_kind e cart vals _ _ cart_part_id_declared
                  Hreq Hp eq_refl) as [Hgp _].
      destruct (cart_collision (rows db cart) (build_row e (schema cart) vals)
                  u p Hrow Hgu Hgp) as [key Hkey].
      destruct (check_not_null (schema cart) _) as [e2 |];
        [exists e2; split; [reflexivity | discriminate] |].
      destruct (check_checks (schema cart) _) as [e3 |];
        [exists e3; split; [reflexivity | discriminate] |].
      rewrite Hkey. exists (unique_violation key). simpl. eauto. }
    split; [exact H |].
    destruct H as (err & Herr & _). eapply rejected_state_after, Herr.
  - intros Hreach u p. unfold cart_rows_of.
    apply pairs_at_most_one
      with (R := fun a b => same_key ["user_id"; "part_id"] a b = false).
    + intros a b Ha Hb.
      apply andb_prop in Ha. destruct Ha as [Hau Hap].
      apply andb_prop in Hb. destruct Hb as [Hbu Hbp].
      apply is_true_eq_uuid in Hau, Hap, Hbu, Hbp.
      unfold same_key. simpl. rewrite Hau, Hap, Hbu, Hbp. simpl.
      rewrite !N.eqb_refl. discriminate.
    + apply (reachable_unique db Hreach cart). cbn. tauto.
Qed.

Lemma row_ok_column (t : table) (r : row) (cd : column) :
  row_ok t r = true ->
  In cd (columns (schema t)) ->
  has_type (get (cname cd) r) (ctype cd) = true
  /\ (is_not_null cd = true -> is_null (get (cname cd) r) = false)
  /\ (forall ex, In ex (checks_of cd) -> is_false (eval ex r) = false).
Proof.
  unfold row_ok, typed. intros H Hcd.
  apply andb_prop in H. destruct H as [H Hck].
  apply andb_prop in H. destruct H as [Hty Hnn].
  rewrite forallb_forall in Hty.
  destruct (check_not_null (schema t) r) eqn:Enn; [discriminate |].
  destruct (check_checks (schema t) r) eqn:Eck; [discriminate |].
  pose proof (proj1 (first_error_none _ _) Enn cd Hcd) as Hn.
  pose proof (proj1 (first_error_none _ _) Eck cd Hcd) as Hc.
  simpl in Hn, Hc. repeat split.
  - apply Hty, Hcd.
  - intros Hnot. rewrite Hnot in Hn. simpl in Hn.
    destruct (is_null (get (cname cd) r)); [discriminate | reflexivity].
  - intros ex Hex.
    pose proof (proj1 (first_error_none _ _) Hc ex Hex) as He. simpl in He.
    destruct (is_false (eval ex r)); [discriminate | reflexivity].
Qed.

Lemma assigned_none (c : string) (vals : list (string * value)) :
  assigned c vals = None ->
  existsb (fun kv => (fst kv =? c)%string) vals = false.
Proof.
  unfold assigned. intros H. apply existsb_false. intros kv Hkv.
  destruct (fst kv =? c)%string eqn:E; [| reflexivity].
  destruct (find _ vals) eqn:Hf; [discriminate |].
  pose proof (find_none _ _ Hf kv Hkv) as Hn. simpl in Hn. congruence.
Qed.

(** C5 (amended): an INSERT into the cart with a quantity of 0 or less is
    rejected and changes nothing, and when the column list is well formed
    and no NOT NULL constraint fails first it is the CHECK on [quantity]
    that is reported; so in every reachable state the quantity of a cart row
    is either NULL or greater than 0. *)
Theorem cart_quantity_positive_or_null (e : env) (db : database) :
  (forall vals z,
      assigned "quantity" vals = Some (VInt z) ->
      z <= 0 ->
      (exists err,
          exec e (Insert cart vals) db = Rejected err
          /\ (check_request (schema cart) vals = None ->
              check_not_null (schema cart) (build_row e (schema cart) vals) = None ->
              err = check_violation "quantity"))
      /\ state_after e (Insert cart vals) db = db)
  /\ (reachable db ->
      forall r, In r (rows db cart) ->
                get "quantity" r = VNull
                \/ exists z, get "quantity" r = VInt z /\ 0 < z).
Proof.
  split.
  - intros vals z Hq Hz.
    assert (H : exists err,
               exec e (Insert cart vals) db = Rejected err
               /\ (check_request (schema cart) vals = None ->
                   check_not_null (schema cart) (build_row e (schema cart) vals) = None ->
                   err = check_violation "quantity")).
    { unfold exec, insert. cbv zeta.
      destruct (check_request (schema cart) vals) as [e1 |] eqn:Hreq;
        [exists e1; split; [reflexivity | discriminate] |].
      destruct (given_same_kind e cart vals _ _ cart_quantity_declared
                  Hreq Hq eq_refl) as [Hget _].
      assert (Hck : check_checks (schema cart) (build_row e (schema cart) vals)
                    = Some (check_violation "quantity")).
      { rewrite check_checks_cart. unfold eval.
        change (cname (col "quantity" INTEGER
                         [DEFAULT (lit (VInt 1)); CHECK (EGt "quantity" 0)]))
          with "quantity" in Hget.
        rewrite Hget. simpl.
        destruct (Z.ltb_spec 0 z); [lia | reflexivity]. }
      destruct (check_not_null (schema cart) _) as [e2 |];
        [exists e2; split; [reflexivity | discriminate] |].
      rewrite Hck. simpl. eauto. }
    split; [exact H |].
    destruct H as (err & Herr & _). eapply rejected_state_after, Herr.
  - intros Hreach r Hr.
    pose proof (reachable_rows_ok db Hreach cart) as Hok.
    rewrite Forall_forall in Hok. specialize (Hok r Hr).
    destruct (row_ok_column cart r _ Hok cart_quantity_declared)
      as (Hty & _ & Hck).
    specialize (Hck (EGt "quantity" 0) (or_introl eq_refl)).
    cbn in Hty, Hck.
    destruct (get "quantity" r) as [| | | | | |z]; try discriminate; auto.
    right. exists z. split; [reflexivity |].
    simpl in Hck. destruct (Z.ltb_spec 0 z); [assumption | discriminate].
Qed.

(** *** Values given in the type of their column *)

Lemma has_type_assignable (v : value) (ty : sqltype) :
  has_type v ty = true -> well_formed v && assignable v ty = true.
Proof.
  intros H. pose proof (SqlFacts.assign_cast_typed v ty H) as Hc.
  unfold assign_cast in Hc.
  destruct (well_formed v && assignable v ty); [reflexivity | discriminate].
Qed.

Lemma find_column_declared (t : table) (cd : column) :
  In cd (columns (schema t)) ->
  find_column (schema t) (cname cd) = Some cd.
Proof.
  intros H. destruct t; cbn in H;
    repeat (destruct H as [<- | H]); try contradiction; reflexivity.
Qed.

Lemma assigned_in (c : string) (vals : list (string * value)) (v : value) :
  assigned c vals = Some v -> In (c, v) vals.
Proof.
  unfold assigned. destruct (find _ vals) as [[c' v'] |] eqn:Hf; [| discriminate].
  intros [= <-]. apply find_some in Hf. destruct Hf as [Hin Heq].
  simpl in Heq. apply String.eqb_eq in Heq. subst. exact Hin.
Qed.

Lemma given_typed_assigned (t : table) (vals : list (string * value))
    (cd : column) (v : value) :
  given_typed (schema t) vals ->
  In cd (columns (schema t)) ->
  assigned (cname cd) vals = Some v ->
  has_type v (ctype cd) = true.
Proof.
  intros Hty Hcd Hv. apply assigned_in in Hv.
  unfold given_typed in Hty. rewrite Forall_forall in Hty.
  destruct (Hty _ Hv) as (cd' & Hfind & H). simpl in Hfind, H.
  rewrite (find_column_declared t cd Hcd) in Hfind.
  injection Hfind as <-. exact H.
Qed.

Lemma check_types_typed (td : table_decl) (vals : list (string * value)) :
  given_typed td vals -> check_types td vals = None.
Proof.
  intros Hty. unfold check_types. apply first_error_none.
  intros [c v] Hin. unfold given_typed in Hty. rewrite Forall_forall in Hty.
  destruct (Hty _ Hin) as (cd & Hfind & H). simpl in Hfind, H.
  pose proof (has_type_assignable v _ H) as Hok.
  apply andb_prop in Hok. destruct Hok as [Hwf Has].
  rewrite Hfind, Hwf, Has. reflexivity.
Qed.

Lemma check_casts_typed (t : table) (vals : list (string * value)) :
  given_typed (schema t) vals -> check_casts (schema t) vals = None.
Proof.
  intros Hty. unfold check_casts. apply first_error_none.
  intros cd Hcd. destruct (assigned (cname cd) vals) as [v |] eqn:Hv;
    [| reflexivity].
  rewrite (SqlFacts.assign_cast_typed v _
             (given_typed_assigned t vals cd v Hty Hcd Hv)).
  reflexivity.
Qed.

(** Values of the type of their columns pass the checks on the request as
    soon as the column list is well formed, and are stored as given. *)
Lemma check_request_typed (t : table) (vals : list (string * value)) :
  given_typed (schema t) vals ->
  check_request (schema t) vals = check_targets (schema t) [] vals.
Proof.
  intros Hty. unfold check_request, first_of. simpl.
  rewrite (check_types_typed _ _ Hty), (check_casts_typed _ _ Hty).
  destruct (check_targets (schema t) [] vals); reflexivity.
Qed.

Lemma build_row_typed (e : env) (t : table) (vals : list (string * value)) :
  given_typed (schema t) vals ->
  build_row e (schema t) vals
  = map (fun cd =>
           (cname cd,
            match assigned (cname cd) vals with
            | Some v => v
            | None =>
                match default_of cd with
                | Some d => eval_default e d
                | None => VNull
                end
            end))
        (columns (schema t)).
Proof.
  intros Hty. unfold build_row. apply map_ext_in. intros cd Hcd.
  destruct (assigned (cname cd) vals) as [v |] eqn:Hv; [| reflexivity].
  rewrite (stored_typed v _ (given_typed_assigned t vals cd v Hty Hcd Hv)).
  reflexivity.
Qed.

Lemma assign_typed (t : table) (vals : list (string * value)) (r : row) :
  given_typed (schema t) vals ->
  assign (schema t) vals r
  = map (fun cd =>
           (cname cd,
            match assigned (cname cd) vals with
            | Some v => v
            | None => get (cname cd) r
            end))
        (columns (schema t)).
Proof.
  intros Hty. unfold assign. apply map_ext_in. intros cd Hcd.
  destruct (assigned (cname cd) vals) as [v |] eqn:Hv; [| reflexivity].
  rewrite (stored_typed v _ (given_typed_assigned t vals cd v Hty Hcd Hv)).
  reflexivity.
Qed.

Ltac solve_given_typed :=
  unfold given_typed;
  repeat (constructor; [eexists; split; [reflexivity | assumption] |]);
  constructor.

(** *** Users *)






(** *** Parts *)

Lemma parts_qty_declared :
  In (col "qty" INTEGER [DEFAULT (lit (VInt 0))])
     (columns (schema catalog_parts)).
Proof. cbn. tauto. Qed.

Lemma parts_id_declared :
  In (col "id" UUID [PRIMARY_KEY; DEFAULT call_gen_random_uuid])
     (columns (schema catalog_parts)).
Proof. cbn. tauto. Qed.

(** A column that is not named in the list may be taken as seen or not. *)
Lemma check_targets_unseen (td : table_decl) (c : string) :
  forall vals seen seen',
    assigned c vals = None ->
    (forall x, x <> c ->
               existsb (String.eqb x) seen = existsb (String.eqb x) seen') ->
    check_targets td seen vals = check_targets td seen' vals.
Proof.
  induction vals as [|[c0 v0] vals IH]; intros seen seen' Hnone Hseen;
    [reflexivity |].
  rewrite assigned_cons in Hnone.
  destruct (String.eqb_spec c0 c) as [| Hne]; [discriminate |].
  simpl. destruct (find_column td c0); [| reflexivity].
  rewrite (Hseen c0 Hne).
  destruct (existsb (String.eqb c0) seen'); [reflexivity |].
  apply IH; [assumption |].
  intros x Hx. simpl. rewrite (Hseen x Hx). reflexivity.
Qed.

Lemma first_error_ext {A : Type} (f g : A -> option error) (l : list A) :
  (forall x, In x l -> f x = g x) ->
  first_error f l = first_error g l.
Proof.
  induction l as [|a l IH]; intros H; [reflexivity |].
  simpl. rewrite (H a (or_introl eq_refl)).
  destruct (g a); [reflexivity |].
  apply IH. intros x Hx. apply H. right. exact Hx.
Qed.

Lemma check_request_qty (vals : list (string * value)) (v : value) :
  assigned "qty" vals = None ->
  has_type v INTEGER = true ->
  check_request (schema catalog_parts) (("qty", v) :: vals)
  = check_request (schema catalog_parts) vals.
Proof.
  intros Hnone Hv.
  assert (H1 : check_targets (schema catalog_parts) [] (("qty", v) :: vals)
               = check_targets (schema catalog_parts) [] vals).
  { change (check_targets (schema catalog_parts) [] (("qty", v) :: vals))
      with (check_targets (schema catalog_parts) ["qty"] vals).
    apply (check_targets_unseen _ "qty"); [assumption |].
    intros x Hx. simpl.
    destruct (String.eqb_spec x "qty"); [contradiction | reflexivity]. }
  assert (H2 : check_types (schema catalog_parts) (("qty", v) :: vals)
               = check_types (schema catalog_parts) vals).
  { unfold check_types.
    change (first_error ?f (("qty", v) :: vals))
      with (match f ("qty", v) with
            | Some err => Some err
            | None => first_error f vals
            end).
    cbv beta iota.
    change (find_column (schema catalog_parts) "qty")
      with (Some (col "qty" INTEGER [DEFAULT (lit (VInt 0))])).
    cbv iota. cbn [ctype].
    pose proof (has_type_assignable v INTEGER Hv) as Hok.
    apply andb_prop in Hok. destruct Hok as [Hwf Has].
    rewrite Hwf, Has. reflexivity. }
  assert (H3 : check_casts (schema catalog_parts) (("qty", v) :: vals)
               = check_casts (schema catalog_parts) vals).
  { unfold check_casts. apply first_error_ext. intros cd Hcd.
    rewrite assigned_cons.
    destruct (String.eqb_spec "qty" (cname cd)) as [Heq | Hne];
      [| reflexivity].
    cbn in Hcd.
    repeat (destruct Hcd as [<- | Hcd]; [try discriminate Heq |]);
      [| contradiction].
    cbn [cname ctype]. rewrite Hnone, (SqlFacts.assign_cast_typed v _ Hv).
    reflexivity. }
  unfold check_request. rewrite H1, H2, H3. reflexivity.
Qed.

Lemma sql_eq_refl (v : value) :
  is_null v = false -> is_true (sql_eq v v) = true.
Proof.
  destruct v; simpl; intros H; try discriminate;
    rewrite ?N.eqb_refl, ?String.eqb_refl, ?Z.eqb_refl; try reflexivity.
  destruct b; reflexivity.
Qed.

Lemma same_key_id (a a' b b' : row) :
  get "id" a = get "id" a' ->
  get "id" b = get "id" b' ->
  same_key ["id"] a b = same_key ["id"] a' b'.
Proof. unfold same_key. simpl. intros -> ->. reflexivity. Qed.

Lemma set_qty_id (v : value) (w : row -> bool) (r : row) :
  get "id" (set_qty v w r) = get "id" r.
Proof. unfold set_qty. destruct (w r); reflexivity. Qed.

(** A row whose referenced key is not changed leaves every reference to it
    in place. *)
Lemma check_referenced_same_key (db : database) (t : table) (old new : row) :
  (forall t' c rc a, In (t', c, rc, a) (referencing t) ->
                     get rc new = get rc old) ->
  check_referenced db t old new = None.
Proof.
  intros H. unfold check_referenced. apply first_error_none.
  intros [[[t' c] rc] a] Hin. rewrite (H _ _ _ _ Hin).
  destruct (is_null (get rc old)) eqn:Hn; [reflexivity |].
  rewrite (sql_eq_refl _ Hn). reflexivity.
Qed.

Lemma update_rows_qty (v : value) (w : row -> bool) (db : database) :
  forall todo done0,
    unique_on ["id"] (done0 ++ todo) ->
    Forall (fun r => row_ok catalog_parts r = true) todo ->
    update_rows catalog_parts [("qty", v)] w db (map (set_qty v w) done0) todo
    = Ok (set_rows db catalog_parts (map (set_qty v w) (done0 ++ todo))).
Proof.
  induction todo as [|r rest IH]; intros done0 Hun Hok.
  - simpl. rewrite app_nil_r. reflexivity.
  - inversion Hok as [| ? ? Hr Hrest]; subst.
    assert (Hnext :
              update_rows catalog_parts [("qty", v)] w db
                (map (set_qty v w) done0 ++ [set_qty v w r]) rest
              = Ok (set_rows db catalog_parts
                      (map (set_qty v w) (done0 ++ r :: rest)))).
    { change (r :: rest) with ([r] ++ rest). rewrite app_assoc.
      rewrite <- (IH (done0 ++ [r])); [| rewrite <- app_assoc; exact Hun
                                        | assumption].
      rewrite map_app. reflexivity. }
    rewrite update_rows_cons. unfold set_qty in Hnext at 2.
    destruct (w r) eqn:Hw; [| exact Hnext].
    set (td := schema catalog_parts) in *.
    set (r' := assign td [("qty", v)] r) in *.
    assert (Hnn : check_not_null td r' = None).
    { unfold row_ok in Hr. fold td in Hr.
      destruct (check_not_null td r) eqn:E;
        [rewrite andb_false_r in Hr; discriminate |].
      exact E. }
    assert (Hck : check_checks td r' = None) by reflexivity.
    assert (Hu : check_unique td (map (set_qty v w) done0 ++ rest) r' = None).
    { assert (Hex : existsb (same_key ["id"] r')
                            (map (set_qty v w) done0 ++ rest) = false).
      { apply pairs_app in Hun. destruct Hun as (_ & Hrest' & Hcross).
        apply pairs_cons in Hrest'. destruct Hrest' as [Hrr _].
        rewrite Forall_forall in Hrr.
        apply existsb_false. intros a Ha.
        apply in_app_or in Ha. destruct Ha as [Ha | Ha].
        - apply in_map_iff in Ha. destruct Ha as (a0 & <- & Ha0).
          rewrite (same_key_id r' r (set_qty v w a0) a0);
            [| reflexivity | apply set_qty_id].
          rewrite same_key_sym. apply Hcross; [assumption | left; reflexivity].
        - rewrite (same_key_id r' r a a); [| reflexivity | reflexivity].
          apply Hrr, Ha. }
      unfold check_unique. change (unique_keys td) with [["id"]].
      unfold first_error. rewrite Hex. reflexivity. }
    rewrite Hnn, Hck, Hu. simpl guard. exact Hnext.
Qed.

(** C7 (amended): a part inserted without [qty] gets 0; nothing but the
    column type restricts [qty]: giving any 32-bit integer, negative ones
    included, or NULL, changes neither whether the INSERT is accepted nor
    the error it reports, and in a reachable state an UPDATE that sets
    [qty] to such a value is accepted on whatever rows it selects; in every
    reachable state the [qty] of a part is NULL or a 32-bit integer. *)
Theorem part_qty_unconstrained (e : env) (db : database) :
  (forall vals,
      assigned "qty" vals = None ->
      get "qty" (build_row e (schema catalog_parts) vals) = VInt 0)
  /\ (forall vals v,
      assigned "qty" vals = None ->
      has_type v INTEGER = true ->
      get "qty" (build_row e (schema catalog_parts) (("qty", v) :: vals)) = v
      /\ exec e (Insert catalog_parts (("qty", v) :: vals)) db
         = match exec e (Insert catalog_parts vals) db with
           | Ok _ =>
               Ok (set_rows db catalog_parts
                     (rows db catalog_parts
                      ++ [build_row e (schema catalog_parts)
                            (("qty", v) :: vals)]))
           | Rejected err => Rejected err
           end)
  /\ (reachable db ->
      forall v w,
        has_type v INTEGER = true ->
        exec e (Update catalog_parts [("qty", v)] w) db
        = Ok (set_rows db catalog_parts
                (map (set_qty v w) (rows db catalog_parts)))
        /\ forall r, get "qty" (assign (schema catalog_parts) [("qty", v)] r) = v)
  /\ (reachable db ->
      forall r, In r (rows db catalog_parts) ->
                get "qty" r = VNull
                \/ exists z, get "qty" r = VInt z
                             /\ int4_min <= z <= int4_max).
Proof.
  split; [| split; [| split]].
  - intros vals H.
    pose proof (get_build_row e catalog_parts vals _ parts_qty_declared) as Hg.
    cbn [cname] in Hg. rewrite H in Hg. exact Hg.
  - intros vals v Hnone Hv. split.
    + pose proof (get_build_row e catalog_parts (("qty", v) :: vals) _
                    parts_qty_declared) as Hg.
      cbn [cname ctype] in Hg. rewrite assigned_cons in Hg.
      rewrite Hg. apply (stored_typed v INTEGER Hv).
    + unfold exec, insert. cbv zeta.
      rewrite (check_request_qty vals v Hnone Hv).
      destruct (check_request (schema catalog_parts) vals); [reflexivity |].
      set (td := schema catalog_parts).
      set (r' := build_row e td (("qty", v) :: vals)).
      set (r := build_row e td vals).
      assert (Hnn : check_not_null td r' = check_not_null td r).
      { unfold check_not_null. apply first_error_ext. intros cd Hcd.
        destruct (is_not_null cd) eqn:Hnot; [| reflexivity].
        unfold r', r, td. rewrite !(get_build_row e catalog_parts _ cd Hcd).
        rewrite assigned_cons.
        destruct (String.eqb_spec "qty" (cname cd)) as [Heq | Hne];
          [| reflexivity].
        cbn in Hcd.
        repeat (destruct Hcd as [<- | Hcd]; [try discriminate Heq |]);
          [| contradiction].
        discriminate Hnot. }
      assert (Hck : forall x, check_checks td x = None) by reflexivity.
      assert (Hun : forall rs, check_unique td rs r' = check_unique td rs r).
      { intros rs. unfold check_unique.
        change (unique_keys td) with [["id"]]. unfold first_error.
        assert (Hid : get "id" r' = get "id" r).
        { unfold r', r, td.
          pose proof (get_build_row e catalog_parts (("qty", v) :: vals) _
                        parts_id_declared) as H1.
          pose proof (get_build_row e catalog_parts vals _
                        parts_id_declared) as H2.
          cbn [cname ctype] in H1, H2. rewrite assigned_cons in H1.
          rewrite H1, H2. reflexivity. }
        assert (Hex : existsb (same_key ["id"] r') rs
                      = existsb (same_key ["id"] r) rs).
        { clear - Hid. induction rs as [|a rs IH]; [reflexivity |].
          cbn [existsb]. rewrite IH.
          rewrite (same_key_id r' r a a Hid eq_refl). reflexivity. }
        rewrite Hex. reflexivity. }
      assert (Hrf : forall d x, check_references d td x = None) by reflexivity.
      rewrite Hnn, !Hck, Hun, !Hrf.
      destruct (check_not_null td r); [reflexivity |].
      destruct (check_unique td (rows db catalog_parts) r); reflexivity.
  - intros Hreach v w Hv.
    assert (Hty : given_typed (schema catalog_parts) [("qty", v)])
      by solve_given_typed.
    split.
    + unfold exec. apply update_ok. split; [| split].
      * apply check_assignments_request.
        rewrite (check_request_typed catalog_parts _ Hty). reflexivity.
      * apply (update_rows_qty v w db (rows db catalog_parts) []).
        -- apply (reachable_unique db Hreach catalog_parts). cbn. tauto.
        -- apply reachable_rows_ok, Hreach.
      * unfold check_after_update. apply first_error_none. intros r _.
        destruct (w r); [| reflexivity].
        apply first_of_none. intros o [<- | [<- | []]].
        -- apply check_referenced_same_key.
           intros t' c rc a [[= <- <- <- <-] | []]. reflexivity.
        -- reflexivity.
    + intros r.
      pose proof (get_assign catalog_parts [("qty", v)] r _
                    parts_qty_declared) as Hg.
      cbn [cname ctype] in Hg. rewrite assigned_cons in Hg.
      rewrite Hg. apply (stored_typed v INTEGER Hv).
  - intros Hreach r Hr.
    pose proof (reachable_rows_ok db Hreach catalog_parts) as Hok.
    rewrite Forall_forall in Hok. specialize (Hok r Hr).
    destruct (row_ok_column catalog_parts r _ Hok parts_qty_declared)
      as (Hty & _ & _).
    cbn in Hty.
    destruct (get "qty" r) as [| | | | | |z]; try discriminate; auto.
    right. exists z. split; [reflexivity |].
    simpl in Hty. apply andb_prop in Hty. destruct Hty as [H1 H2].
    apply Z.leb_le in H1, H2. lia.
Qed.

(** *** Nullable references of the cart *)

Lemma typed_uuid (v : value) :
  has_type v UUID = true -> v = VNull \/ exists u, v = VUuid u.
Proof. destruct v; simpl; try discriminate; eauto. Qed.

Lemma reference_found (rs : list row) (v : value) :
  has_type v UUID = true ->
  (v = VNull \/ exists r, In r rs /\ get "id" r = v) ->
  is_null v || existsb (fun r' => is_true (sql_eq (get "id" r') v)) rs = true.
Proof.
  intros Hty [-> | (r & Hin & Hid)]; [reflexivity |].
  destruct (typed_uuid v Hty) as [-> | [u ->]]; [reflexivity |].
  simpl. apply existsb_exists. exists r. split; [assumption |].
  apply is_true_eq_uuid. assumption.
Qed.

(** C10: [user_id] and [part_id] accept NULL. Whatever the cart already
    holds, rows with the very same pair included, an INSERT whose pair has a
    NULL in it is accepted as long as the reference that is not NULL exists
    and the generated id is new; and there is a reachable state whose cart
    holds two rows with the same user and a NULL part. *)
Theorem cart_references_nullable (e : env) (db : database) :
  (forall u p,
      u = VNull \/ p = VNull ->
      has_type u UUID = true ->
      has_type p UUID = true ->
      (u = VNull \/ exists r, In r (rows db catalog_users) /\ get "id" r = u) ->
      (p = VNull \/ exists r, In r (rows db catalog_parts) /\ get "id" r = p) ->
      (forall r, In r (rows db cart) -> get "id" r <> VUuid (gen_random_uuid e)) ->
      exec e (Insert cart [("user_id", u); ("part_id", p)]) db
      = Ok (set_rows db cart
              (rows db cart
               ++ [[("id", VUuid (gen_random_uuid e)); ("user_id", u);
                    ("part_id", p); ("quantity", VInt 1);
                    ("created_at", VTime (now e))]])))
  /\ (exists db2 r1 r2,
         reachable db2
         /\ rows db2 cart = [r1; r2]
         /\ get "user_id" r1 = VUuid 1 /\ get "part_id" r1 = VNull
         /\ get "user_id" r2 = VUuid 1 /\ get "part_id" r2 = VNull).
Proof.
  split.
  - intros u p Hnull Hu Hp Hfu Hfp Hfresh.
    assert (Hty : given_typed (schema cart) [("user_id", u); ("part_id", p)])
      by solve_given_typed.
    set (new := [("id", VUuid (gen_random_uuid e)); ("user_id", u);
                 ("part_id", p); ("quantity", VInt 1);
                 ("created_at", VTime (now e))]).
    assert (Hnew : build_row e (schema cart) [("user_id", u); ("part_id", p)]
                   = new).
    { rewrite (build_row_typed e cart _ Hty). reflexivity. }
    apply insert_ok. cbv zeta. rewrite Hnew.
    repeat split.
    + rewrite (check_request_typed cart _ Hty). reflexivity.
    + unfold check_unique.
      change (unique_keys (schema cart)) with [["id"]; ["user_id"; "part_id"]].
      assert (Hid : existsb (same_key ["id"] new) (rows db cart) = false).
      { apply existsb_false. intros a Ha.
        destruct (same_key ["id"] new a) eqn:Hs; [| reflexivity].
        destruct (Hfresh a Ha). apply is_true_eq_uuid.
        unfold same_key in Hs. cbn in Hs. rewrite andb_true_r in Hs.
        rewrite sql_eq_sym. exact Hs. }
      assert (Hpair : existsb (same_key ["user_id"; "part_id"] new)
                              (rows db cart) = false).
      { apply existsb_false. intros a _. unfold same_key. cbn.
        destruct Hnull as [-> | ->]; [reflexivity |].
        apply andb_false_r. }
      unfold first_error. rewrite Hid, Hpair. reflexivity.
    + unfold check_references. cbn.
      rewrite (reference_found (tbl_catalog_users db) u Hu Hfu).
      rewrite (reference_found (tbl_catalog_parts db) p Hp Hfp).
      reflexivity.
  - exists (state_after (Samples.at_uuid 3)
              (Insert cart [("user_id", VUuid 1); ("part_id", VNull)])
              (state_after (Samples.at_uuid 2)
                 (Insert cart [("user_id", VUuid 1); ("part_id", VNull)])
                 (state_after (Samples.at_uuid 1)
                    (Insert catalog_users Samples.alice) empty))).
    do 2 eexists.
    split; [repeat apply reachable_state_after; constructor | repeat split].
Qed.

(** *** The statements on sample data *)

Import Samples.

Lemma shop_reachable : reachable shop.
Proof. repeat apply reachable_state_after. constructor. Qed.

Lemma delete_cascades_to_cart_only_witness :
  exec (at_uuid 0) (Delete catalog_users (where_id 1)) shop
  = Ok {| tbl_catalog_users := [];
          tbl_catalog_parts := tbl_catalog_parts shop;
          tbl_cart := [];
          tbl_verification_codes := [] |}.
Proof.
  destruct (delete_cascades_to_cart_only (at_uuid 0) shop) as [H _].
  rewrite (H 1%N).
  - reflexivity.
  - eexists. split; [left; reflexivity | reflexivity].
Defined.

Lemma cart_pair_unique_witness :
  (exists err,
      exec (at_uuid 4)
           (Insert cart [("user_id", VUuid 1); ("part_id", VUuid 2);
                         ("quantity", VInt 5)]) shop
      = Rejected err
      /\ exists key, err = unique_violation key)
  /\ (List.length (cart_rows_of 1 2 (rows shop cart)) <= 1)%nat.
Proof.
  destruct (cart_pair_unique (at_uuid 4) shop) as [H1 H2].
  split.
  - destruct (H1 [("user_id", VUuid 1); ("part_id", VUuid 2);
                  ("quantity", VInt 5)] 1%N 2%N)
      as [(err & Herr & Hkey) _].
    + eexists. split; [left; reflexivity | split; reflexivity].
    + reflexivity.
    + reflexivity.
    + exists err. split; [exact Herr | apply Hkey; reflexivity].
  - apply H2, shop_reachable.
Defined.

(** C5, as stated, fails in its last part: the quantity column is nullable
    and a CHECK passes on NULL, so the INSERT below is accepted and leaves a
    cart row whose quantity is not greater than 0. *)
Lemma cart_quantity_null_accepted :
  exec (at_uuid 1) (Insert cart [("quantity", VNull)]) empty
  = Ok {| tbl_catalog_users := [];
          tbl_catalog_parts := [];
          tbl_cart := [[("id", VUuid 1); ("user_id", VNull);
                        ("part_id", VNull); ("quantity", VNull);
                        ("created_at", VTime 0)]];
          tbl_verification_codes := [] |}
  /\ ~ (forall db, reachable db ->
        forall r, In r (rows db cart) ->
                  exists z, get "quantity" r = VInt z /\ 0 < z).
Proof.
  split; [reflexivity |].
  intros H.
  destruct (H (state_after (at_uuid 1) (Insert cart [("quantity", VNull)]) empty)
              (reachable_state_after _ _ _ reachable_empty)
              [("id", VUuid 1); ("user_id", VNull); ("part_id", VNull);
               ("quantity", VNull); ("created_at", VTime 0)])
    as (z & Hz & _).
  - left. reflexivity.
  - discriminate.
Qed.

Lemma cart_quantity_positive_or_null_witness :
  state_after (at_uuid 4)
    (Insert cart [("user_id", VUuid 1); ("quantity", VInt 0)]) shop = shop
  /\ forall r, In r (rows shop cart) ->
               get "quantity" r = VNull
               \/ exists z, get "quantity" r = VInt z /\ 0 < z.
Proof.
  destruct (cart_quantity_positive_or_null (at_uuid 4) shop) as [H1 H2].
  split.
  - apply (H1 [("user_id", VUuid 1); ("quantity", VInt 0)] 0);
      [reflexivity | lia].
  - apply H2, shop_reachable.
Defined.


(** C7, as stated, fails: [qty] carries no CHECK, so a part is inserted
    with quantity -1 and then updated to -5. *)
Lemma part_negative_qty_accepted :
  exec (at_uuid 2) (Insert catalog_parts (("qty", VInt (-1)) :: bolt)) empty
  = Ok {| tbl_catalog_users := [];
          tbl_catalog_parts :=
            [[("id", VUuid 2); ("part_number", VText "B-8");
              ("name_en", VText "Bolt"); ("name_ru", VText "Bolt M8");
              ("category", VText "fasteners"); ("price", VNumeric 125 2);
              ("qty", VInt (-1)); ("image_url", VNull);
              ("created_at", VTime 0); ("updated_at", VTime 0)]];
          tbl_cart := [];
          tbl_verification_codes := [] |}
  /\ exec (at_uuid 0) (Update catalog_parts [("qty", VInt (-5))] (where_id 2))
          (state_after (at_uuid 2)
             (Insert catalog_parts (("qty", VInt (-1)) :: bolt)) empty)
     = Ok {| tbl_catalog_users := [];
             tbl_catalog_parts :=
               [[("id", VUuid 2); ("part_number", VText "B-8");
                 ("name_en", VText "Bolt"); ("name_ru", VText "Bolt M8");
                 ("category", VText "fasteners"); ("price", VNumeric 125 2);
                 ("qty", VInt (-5)); ("image_url", VNull);
                 ("created_at", VTime 0); ("updated_at", VTime 0)]];
             tbl_cart := [];
             tbl_verification_codes := [] |}.
Proof. split; reflexivity. Qed.

Lemma part_qty_unconstrained_witness :
  get "qty" (build_row (at_uuid 5) (schema catalog_parts) bolt) = VInt 0
  /\ exec (at_uuid 5) (Insert catalog_parts (("qty", VInt (-7)) :: bolt)) shop
     = Ok (set_rows shop catalog_parts
             (rows shop catalog_parts
              ++ [build_row (at_uuid 5) (schema catalog_parts)
                    (("qty", VInt (-7)) :: bolt)]))
  /\ exec (at_uuid 0) (Update catalog_parts [("qty", VInt (-5))] (where_id 2)) shop
     = Ok (set_rows shop catalog_parts
             (map (set_qty (VInt (-5)) (where_id 2)) (rows shop catalog_parts))).
Proof.
  destruct (part_qty_unconstrained (at_uuid 5) shop) as (H1 & H2 & _).
  destruct (part_qty_unconstrained (at_uuid 0) shop) as (_ & _ & H3 & _).
  split; [| split].
  - apply H1. reflexivity.
  - destruct (H2 bolt (VInt (-7))) as [_ ->]; reflexivity.
  - apply (H3 shop_reachable (VInt (-5)) (where_id 2)). reflexivity.
Defined.

Lemma cart_references_nullable_witness :
  exec (at_uuid 9) (Insert cart [("user_id", VUuid 1); ("part_id", VNull)])
       (state_after (at_uuid 8)
          (Insert cart [("user_id", VUuid 1); ("part_id", VNull)]) shop)
  = Ok (set_rows shop cart
          (rows shop cart
           ++ [[("id", VUuid 8); ("user_id", VUuid 1); ("part_id", VNull);
                ("quantity", VInt 1); ("created_at", VTime 0)];
               [("id", VUuid 9); ("user_id", VUuid 1); ("part_id", VNull);
                ("quantity", VInt 1); ("created_at", VTime 0)]])).
Proof.
  destruct (cart_references_nullable (at_uuid 9)
              (state_after (at_uuid 8)
                 (Insert cart [("user_id", VUuid 1); ("part_id", VNull)]) shop))
    as [H _].
  rewrite (H (VUuid 1) VNull).
  - reflexivity.
  - right. reflexivity.
  - reflexivity.
  - reflexivity.
  - right. eexists. split; [left; reflexivity | reflexivity].
  - left. reflexivity.
  - intros r [<- | [<- | []]]; discriminate.
Defined.

End EngineFacts.

(** ** More on the schema: rows, keys, references *)

Module SchemaFacts.
Import Sql Schema Engine Keys EngineFacts.
Local Open Scope list_scope.

Arguments assigned : simpl never.

(** *** INSERT *)

Lemma stored_null (ty : sqltype) : stored VNull ty = VNull.
Proof. destruct ty; reflexivity. Qed.

(** X1: an accepted INSERT appends one row to its table. In that row a
    column the statement gave a value for holds that value cast to the type
    of the column (the cast has succeeded), so the value itself when it is
    of that type, an explicit NULL included; any other column holds its
    DEFAULT, or NULL when it has none. *)
Theorem insert_then_lookup (e : env) (t : table) (vals : list (string * value))
    (db db' : database) :
  exec e (Insert t vals) db = Ok db' ->
  exists r,
    rows db' t = rows db t ++ [r]
    /\ (forall cd, In cd (columns (schema t)) ->
          match assigned (cname cd) vals with
          | Some v => assign_cast v (ctype cd) = Some (get (cname cd) r)
          | None =>
              get (cname cd) r
              = match default_of cd with
                | Some d => eval_default e d
                | None => VNull
                end
          end)
    /\ (forall cd v, In cd (columns (schema t)) ->
          assigned (cname cd) vals = Some v ->
          has_type v (ctype cd) = true ->
          get (cname cd) r = v).
Proof.
  intros H. simpl in H. apply insert_ok in H. cbv zeta in H.
  destruct H as (Hreq & _ & _ & _ & _ & ->).
  exists (build_row e (schema t) vals). split; [| split].
  - apply rows_set_rows.
  - intros cd Hcd. rewrite (get_build_row e t vals cd Hcd).
    destruct (assigned (cname cd) vals) as [v |] eqn:Hv; [| reflexivity].
    apply (request_casts _ _ cd v Hreq Hcd Hv).
  - intros cd v Hcd Hv Hty. rewrite (get_build_row e t vals cd Hcd), Hv.
    apply stored_typed, Hty.
Qed.

(** X2: a NOT NULL (or PRIMARY KEY) column cannot be left empty: an INSERT
    that gives it an explicit NULL, or leaves it out when it has no DEFAULT,
    is rejected and changes nothing. *)
Theorem insert_requires_not_null_columns (e : env) (t : table)
    (vals : list (string * value)) (db : database) (cd : column) :
  In cd (columns (schema t)) ->
  is_not_null cd = true ->
  assigned (cname cd) vals = Some VNull
  \/ (assigned (cname cd) vals = None /\ default_of cd = None) ->
  (exists err, exec e (Insert t vals) db = Rejected err)
  /\ state_after e (Insert t vals) db = db.
Proof.
  intros Hcd Hnn Hgiven.
  assert (Hget : get (cname cd) (build_row e (schema t) vals) = VNull).
  { rewrite (get_build_row e t vals cd Hcd).
    destruct Hgiven as [-> | [-> ->]]; [apply stored_null | reflexivity]. }
  assert (Hrej : exists err, exec e (Insert t vals) db = Rejected err).
  { unfold exec, insert. cbv zeta.
    destruct (check_request (schema t) vals) as [e1 |]; [simpl; eauto |].
    destruct (check_not_null (schema t) _) as [e2 |] eqn:Hn; [simpl; eauto |].
    exfalso.
    pose proof (proj1 (first_error_none _ _) Hn cd Hcd) as Hc. simpl in Hc.
    rewrite Hnn, Hget in Hc. discriminate. }
  split; [exact Hrej |].
  destruct Hrej as [err Herr]. eapply rejected_state_after, Herr.
Qed.

(** *** UPDATE *)

(** X3: an accepted UPDATE rewrites, in place and in order, exactly the rows
    its WHERE selects; in a rewritten row a SET column holds the new value
    cast to the type of the column (the cast has succeeded), so the value
    itself when it is of that type, and every other column, [updated_at]
    included, keeps its old one. No row is added or removed and no other
    table changes. *)
Theorem update_rewrites_selected_rows (e : env) (t : table)
    (vals : list (string * value)) (w : row -> bool) (db db' : database) :
  exec e (Update t vals w) db = Ok db' ->
  rows db' t
  = map (fun r => if w r then assign (schema t) vals r else r) (rows db t)
  /\ (forall r cd, In cd (columns (schema t)) ->
        match assigned (cname cd) vals with
        | Some v =>
            assign_cast v (ctype cd)
            = Some (get (cname cd) (assign (schema t) vals r))
        | None => get (cname cd) (assign (schema t) vals r) = get (cname cd) r
        end)
  /\ (forall r cd v, In cd (columns (schema t)) ->
        assigned (cname cd) vals = Some v ->
        has_type v (ctype cd) = true ->
        get (cname cd) (assign (schema t) vals r) = v)
  /\ (forall t', List.length (rows db' t') = List.length (rows db t'))
  /\ (forall t', t' <> t -> rows db' t' = rows db t').
Proof.
  intros H. simpl in H.
  pose proof (proj1 (update_ok _ _ _ _ _) H) as (Hreq & _ & _).
  apply check_assignments_request in Hreq.
  apply update_ok_rows in H. subst db'.
  split; [apply rows_set_rows |]. split; [| split; [| split]].
  - intros r cd Hcd. rewrite (get_assign t vals r cd Hcd).
    destruct (assigned (cname cd) vals) as [v |] eqn:Hv; [| reflexivity].
    apply (request_casts _ _ cd v Hreq Hcd Hv).
  - intros r cd v Hcd Hv Hty. rewrite (get_assign t vals r cd Hcd), Hv.
    apply stored_typed, Hty.
  - intros t'. destruct (table_eq_dec t' t) as [-> | Hne].
    + rewrite rows_set_rows. apply length_map.
    + rewrite rows_set_rows_other by assumption. reflexivity.
  - intros t' Hne. apply rows_set_rows_other. assumption.
Qed.

(** *** DELETE *)

Lemma filter_idem {A : Type} (f : A -> bool) (l : list A) :
  filter f (filter f l) = filter f l.
Proof.
  induction l as [|a l IH]; simpl; [reflexivity |].
  destruct (f a) eqn:Hf; simpl; rewrite ?Hf, IH; reflexivity.
Qed.

Lemma filter_none {A : Type} (f : A -> bool) (l : list A) :
  filter f (filter (fun a => negb (f a)) l) = [].
Proof.
  induction l as [|a l IH]; simpl; [reflexivity |].
  destruct (f a) eqn:Hf; simpl; rewrite ?Hf; exact IH.
Qed.

Lemma filter_all {A : Type} (l : list A) : filter (fun _ => true) l = l.
Proof. induction l; simpl; congruence. Qed.

(** X4: a DELETE is always accepted; afterwards no row of its table
    satisfies the WHERE, every table holds only rows it held before, and
    running the same DELETE again changes nothing. *)
Theorem delete_removes_and_is_idempotent (e e' : env) (t : table)
    (w : row -> bool) (db : database) :
  exists db',
    exec e (Delete t w) db = Ok db'
    /\ (forall r, In r (rows db' t) -> w r = false)
    /\ (forall t' r, In r (rows db' t') -> In r (rows db t'))
    /\ exec e' (Delete t w) db' = Ok db'.
Proof.
  unfold exec. rewrite delete_closed_form. eexists. split; [reflexivity |].
  split; [| split].
  - intros r Hr. destruct t; simpl in Hr;
      apply filter_In in Hr; destruct Hr as [_ Hr];
      destruct (w r); [discriminate | reflexivity
                      | discriminate | reflexivity
                      | discriminate | reflexivity
                      | discriminate | reflexivity].
  - intros t' r Hr. destruct t, t'; simpl in Hr |- *;
      try assumption; apply filter_In in Hr; tauto.
  - rewrite delete_closed_form.
    destruct t; simpl; rewrite ?filter_idem, ?filter_none; simpl;
      rewrite ?filter_all; reflexivity.
Qed.

(** *** Keys *)

Lemma id_column_declared (t : table) : In id_column (columns (schema t)).
Proof. destruct t; cbn; tauto. Qed.

Lemma id_is_key (t : table) : In ["id"] (unique_keys (schema t)).
Proof. destruct t; cbn; tauto. Qed.

(** A key column that is typed and not NULL in every row, and on which no
    two rows collide, holds pairwise different values. *)
Lemma key_values_distinct (c : string) (rs : list row) :
  unique_on [c] rs ->
  (forall r, In r rs -> is_null (get c r) = false) ->
  NoDup (map (get c) rs).
Proof.
  induction rs as [|a rs IH]; simpl; intros Hun Hnn; [constructor |].
  apply pairs_cons in Hun. destruct Hun as [Ha Hrs].
  constructor; [| apply IH; auto].
  intros Hin. apply in_map_iff in Hin. destruct Hin as (b & Hb & Hinb).
  rewrite Forall_forall in Ha. specialize (Ha b Hinb).
  unfold same_key in Ha. simpl in Ha. rewrite Hb in Ha.
  rewrite (sql_eq_refl (get c a)) in Ha by auto. discriminate.
Qed.

Lemma stored_column (db : database) (t : table) (r : row) (cd : column) :
  reachable db ->
  In r (rows db t) ->
  In cd (columns (schema t)) ->
  has_type (get (cname cd) r) (ctype cd) = true
  /\ (is_not_null cd = true -> is_null (get (cname cd) r) = false).
Proof.
  intros Hreach Hr Hcd.
  pose proof (reachable_rows_ok db Hreach t) as Hok.
  rewrite Forall_forall in Hok.
  destruct (row_ok_column t r cd (Hok r Hr) Hcd) as (H1 & H2 & _). auto.
Qed.

(** A proposed row that shares a non-NULL value on a single-column key with
    a stored row is turned down by the unique check. *)
Lemma key_collision (t : table) (c : string) (rs : list row) (new r : row) :
  In [c] (unique_keys (schema t)) ->
  In r rs ->
  get c new = get c r ->
  is_null (get c r) = false ->
  check_unique (schema t) rs new <> None.
Proof.
  intros Hkey Hr Heq Hnn Hnone.
  pose proof (check_unique_none _ _ _ Hnone [c] r Hkey Hr) as H.
  unfold same_key in H. simpl in H. rewrite Heq in H.
  rewrite (sql_eq_refl _ Hnn) in H. discriminate.
Qed.

Lemma insert_rejected_on_collision (e : env) (t : table)
    (vals : list (string * value)) (db : database) :
  (check_request (schema t) vals = None ->
   check_unique (schema t) (rows db t) (build_row e (schema t) vals) <> None) ->
  exists err, exec e (Insert t vals) db = Rejected err.
Proof.
  intros Hun. unfold exec, insert. cbv zeta.
  destruct (check_request (schema t) vals) as [e1 |]; [simpl; eauto |].
  specialize (Hun eq_refl).
  destruct (check_not_null (schema t) _) as [e2 |]; [simpl; eauto |].
  destruct (check_checks (schema t) _) as [e3 |]; [simpl; eauto |].
  destruct (check_unique (schema t) _ _) as [e4 |]; [simpl; eauto |].
  congruence.
Qed.

(** X5: [id] is a primary key of each of the four tables. An INSERT whose
    id, given or generated, is already used in the table is rejected; and in
    every reachable state every row's id is a UUID, never NULL, and no two
    rows of a table have the same id. *)
Theorem id_is_primary_key (e : env) (t : table) (db : database) :
  (forall vals u,
      (exists r, In r (rows db t) /\ get "id" r = VUuid u) ->
      assigned "id" vals = Some (VUuid u)
      \/ (assigned "id" vals = None /\ gen_random_uuid e = u) ->
      exists err, exec e (Insert t vals) db = Rejected err)
  /\ (reachable db ->
      (forall r, In r (rows db t) -> exists u, get "id" r = VUuid u)
      /\ NoDup (map (get "id") (rows db t))).
Proof.
  split.
  - intros vals u (r & Hr & Hid) Hgiven.
    apply insert_rejected_on_collision. intros Hreq.
    apply (key_collision t "id" _ _ r (id_is_key t) Hr).
    + rewrite Hid. destruct Hgiven as [Hv | [Hv <-]].
      * apply (given_same_kind e t vals id_column (VUuid u)
                 (id_column_declared t) Hreq Hv eq_refl).
      * pose proof (get_build_row e t vals id_column (id_column_declared t))
          as Hg.
        change (cname id_column) with "id" in Hg.
        rewrite Hg, Hv. reflexivity.
    + rewrite Hid. reflexivity.
  - intros Hreach.
    assert (Hnn : forall r, In r (rows db t) -> is_null (get "id" r) = false).
    { intros r Hr.
      apply (stored_column db t r id_column Hreach Hr (id_column_declared t)).
      reflexivity. }
    split.
    + intros r Hr.
      destruct (stored_column db t r id_column Hreach Hr (id_column_declared t))
        as [Hty _].
      specialize (Hnn r Hr). simpl in Hty.
      destruct (get "id" r); try discriminate. eauto.
    + apply key_values_distinct; [| exact Hnn].
      apply (reachable_unique db Hreach t), id_is_key.
Qed.

Lemma email_column_declared : In email_column (columns (schema catalog_users)).
Proof. cbn. tauto. Qed.

(** X6: the email of a user is unique. An INSERT into [catalog_users] with
    an email that a stored user already has is rejected and changes nothing;
    in every reachable state every user has a text email and no two users
    have the same one. *)
Theorem user_email_unique (e : env) (db : database) :
  (forall vals s,
      (exists r, In r (rows db catalog_users) /\ get "email" r = VText s) ->
      assigned "email" vals = Some (VText s) ->
      (exists err, exec e (Insert catalog_users vals) db = Rejected err)
      /\ state_after e (Insert catalog_users vals) db = db)
  /\ (reachable db ->
      (forall r, In r (rows db catalog_users) ->
                 exists s, get "email" r = VText s)
      /\ NoDup (map (get "email") (rows db catalog_users))).
Proof.
  split.
  - intros vals s (r & Hr & Hem) Hgiven.
    assert (Hrej : exists err,
               exec e (Insert catalog_users vals) db = Rejected err).
    { apply insert_rejected_on_collision. intros Hreq.
      apply (key_collision catalog_users "email" _ _ r); try assumption.
      - cbn. tauto.
      - rewrite Hem.
        apply (given_same_kind e catalog_users vals email_column (VText s)
                 email_column_declared Hreq Hgiven eq_refl).
      - rewrite Hem. reflexivity. }
    split; [exact Hrej |].
    destruct Hrej as [err Herr]. eapply rejected_state_after, Herr.
  - intros Hreach.
    assert (Hnn : forall r, In r (rows db catalog_users) ->
                            is_null (get "email" r) = false).
    { intros r Hr.
      apply (stored_column db _ r email_column Hreach Hr email_column_declared).
      reflexivity. }
    split.
    + intros r Hr.
      destruct (stored_column db _ r email_column Hreach Hr email_column_declared)
        as [Hty _].
      specialize (Hnn r Hr). simpl in Hty.
      destruct (get "email" r); try discriminate. eauto.
    + apply key_values_distinct; [| exact Hnn].
      apply (reachable_unique db Hreach catalog_users). cbn. tauto.
Qed.

(** *** References *)

Lemma sql_eq_trans (a b c : value) :
  is_true (sql_eq a b) = true ->
  is_true (sql_eq a c) = true ->
  is_true (sql_eq b c) = true.
Proof.
  destruct a, b; simpl; try discriminate; destruct c; simpl;
    try discriminate.
  - intros H1 H2. destruct (N.eqb_spec u u0), (N.eqb_spec u u1);
      try discriminate. subst. rewrite N.eqb_refl. reflexivity.
  - intros H1 H2. destruct (String.eqb_spec s s0), (String.eqb_spec s s1);
      try discriminate. subst. rewrite String.eqb_refl. reflexivity.
  - destruct b, b0, b1; simpl; congruence.
  - intros H1 H2. destruct (Z.eqb_spec t t0), (Z.eqb_spec t t1);
      try discriminate. subst. rewrite Z.eqb_refl. reflexivity.
  - intros H1 H2.
    destruct (Z.eqb_spec (unscaled * 10 ^ Z.of_N scale0)
                         (unscaled0 * 10 ^ Z.of_N scale)) as [E1 |];
      [| discriminate].
    destruct (Z.eqb_spec (unscaled * 10 ^ Z.of_N scale1)
                         (unscaled1 * 10 ^ Z.of_N scale)) as [E2 |];
      [| discriminate].
    assert (Hp : 0 < 10 ^ Z.of_N scale) by (apply Z.pow_pos_nonneg; lia).
    assert (E : unscaled0 * 10 ^ Z.of_N scale1 = unscaled1 * 10 ^ Z.of_N scale0).
    { apply (Z.mul_cancel_r _ _ (10 ^ Z.of_N scale)); [lia |].
      transitivity (unscaled * 10 ^ Z.of_N scale0 * 10 ^ Z.of_N scale1);
        [rewrite E1; ring |].
      transitivity (unscaled * 10 ^ Z.of_N scale1 * 10 ^ Z.of_N scale0);
        [ring | rewrite E2; ring]. }
    rewrite E, Z.eqb_refl. reflexivity.
  - intros H1 H2. destruct (Z.eqb_spec z z0), (Z.eqb_spec z z1);
      try discriminate. subst. rewrite Z.eqb_refl. reflexivity.
Qed.

Lemma sql_eq_not_null (a b : value) :
  is_true (sql_eq a b) = true -> is_null a = false.
Proof. destruct a; simpl; [discriminate | ..]; reflexivity. Qed.

Lemma points_to_spec (targets : list row) (v : value) :
  points_to targets v = true <->
  v = VNull \/ exists x, In x targets /\ is_true (sql_eq (get "id" x) v) = true.
Proof.
  unfold points_to. rewrite orb_true_iff, existsb_exists.
  split; (intros [H | H]; [left | right; exact H]).
  - destruct v; simpl in H; try discriminate. reflexivity.
  - subst. reflexivity.
Qed.

Lemma points_to_incl (l l' : list row) (v : value) :
  (forall x, In x l -> In x l') ->
  points_to l v = true -> points_to l' v = true.
Proof.
  rewrite !points_to_spec. intros Hincl [H | (x & Hx & Heq)]; eauto.
Qed.

Lemma check_references_cart (db : database) (r : row) :
  check_references db (schema cart) r = None <->
  references_ok (rows db catalog_users) (rows db catalog_parts) r = true.
Proof.
  unfold check_references, references_ok, points_to. cbn.
  destruct (is_null (get "user_id" r)
            || existsb (fun r' => is_true (sql_eq (get "id" r') (get "user_id" r)))
                       (tbl_catalog_users db));
    destruct (is_null (get "part_id" r)
              || existsb (fun r' => is_true (sql_eq (get "id" r') (get "part_id" r)))
                         (tbl_catalog_parts db));
    simpl; split; congruence.
Qed.

(** A reference that has not changed points where it pointed. *)
Lemma points_to_unchanged (targets : list row) (v v' : value) :
  is_true (sql_eq v v') = true ->
  points_to targets v = true ->
  points_to targets v' = true.
Proof.
  intros Hsame Hpt. apply points_to_spec in Hpt. apply points_to_spec.
  destruct Hpt as [-> | (x & Hx & Heq)]; [discriminate |].
  right. exists x. split; [assumption |].
  rewrite sql_eq_sym in Heq. rewrite sql_eq_sym.
  eapply sql_eq_trans; [exact Hsame | exact Heq].
Qed.

Lemma check_references_changed_cart (db : database) (old new : row) :
  check_references_changed db (schema cart) old new = None ->
  references_ok (rows db catalog_users) (rows db catalog_parts) old = true ->
  references_ok (rows db catalog_users) (rows db catalog_parts) new = true.
Proof.
  unfold references_ok. intros H Hold.
  apply andb_prop in Hold. destruct Hold as [Hu Hp].
  assert (Hcol : forall c t targets,
             rows db t = targets ->
             (if is_null (get c new)
                 || is_true (sql_eq (get c old) (get c new))
                 || existsb (fun r' => is_true (sql_eq (get "id" r') (get c new)))
                            (rows db t)
              then @None error
              else Some (foreign_key_violation c)) = None ->
             points_to targets (get c old) = true ->
             points_to targets (get c new) = true).
  { intros c t targets <- Hc Hpt. unfold points_to.
    destruct (is_null (get c new)) eqn:Hn; [reflexivity |].
    destruct (is_true (sql_eq (get c old) (get c new))) eqn:Hs.
    - pose proof (points_to_unchanged _ _ _ Hs Hpt) as Hnew.
      unfold points_to in Hnew. rewrite Hn in Hnew. exact Hnew.
    - simpl in Hc. simpl.
      destruct (existsb _ (rows db t)); [reflexivity | discriminate]. }
  unfold check_references_changed in H.
  pose proof (proj1 (first_error_none _ _) H _ cart_user_id_declared) as H1.
  pose proof (proj1 (first_error_none _ _) H _ cart_part_id_declared) as H2.
  pose proof (proj1 (first_error_none _ _) H1 _ (or_introl eq_refl)) as H1'.
  pose proof (proj1 (first_error_none _ _) H2 _ (or_introl eq_refl)) as H2'.
  cbv beta iota zeta in H1', H2'. cbn [cname] in H1', H2'.
  apply andb_true_intro. split.
  - exact (Hcol "user_id" catalog_users _ eq_refl H1' Hu).
  - exact (Hcol "part_id" catalog_parts _ eq_refl H2' Hp).
Qed.

Lemma check_references_other (db : database) (t : table) (r : row) :
  t <> cart -> check_references db (schema t) r = None.
Proof. destruct t; intros H; try reflexivity. congruence. Qed.

(** What an accepted UPDATE has checked, once its rows are rewritten, for
    each row it selected. *)
Lemma update_ok_checked (t : table) (vals : list (string * value))
    (w : row -> bool) (db db' : database) :
  update t vals w db = Ok db' ->
  forall r, In r (rows db t) -> w r = true ->
    check_referenced db' t r (assign (schema t) vals r) = None
    /\ check_references_changed db' (schema t) r (assign (schema t) vals r)
       = None.
Proof.
  intros H r Hr Hw. apply update_ok in H. destruct H as (_ & _ & H).
  unfold check_after_update in H.
  pose proof (proj1 (first_error_none _ _) H r Hr) as Hc. simpl in Hc.
  rewrite Hw in Hc.
  pose proof (proj1 (first_of_none _) Hc) as Hall.
  split; apply Hall; simpl; auto.
Qed.

(** What the absence of an ON UPDATE clause buys: after an accepted UPDATE
    of [t], whatever a row of the cart referred to through column [c] is
    still there. *)
Lemma referenced_rows_stay (t : table) (c : string)
    (vals : list (string * value)) (w : row -> bool) (db db' : database)
    (x : row) :
  referencing t = [(cart, c, "id", CASCADE)] ->
  update t vals w db = Ok db' ->
  In x (rows db cart) ->
  points_to (rows db t) (get c x) = true ->
  points_to (rows db' t) (get c x) = true.
Proof.
  intros Href H Hx Hpt.
  assert (Htc : t <> cart) by (intros ->; discriminate Href).
  pose proof (update_ok_checked _ _ _ _ _ H) as Hchecked.
  pose proof (update_ok_rows _ _ _ _ _ H) as Hrows.
  assert (Hcart : rows db' cart = rows db cart).
  { rewrite Hrows. apply rows_set_rows_other. congruence. }
  assert (Hnew : rows db' t
                 = map (fun r => if w r then assign (schema t) vals r else r)
                       (rows db t)).
  { rewrite Hrows. apply rows_set_rows. }
  apply points_to_spec in Hpt. apply points_to_spec.
  destruct Hpt as [Hnull | (r & Hr & Heq)]; [auto |]. right.
  destruct (w r) eqn:Hw.
  - destruct (Hchecked r Hr Hw) as [Hrd _].
    unfold check_referenced in Hrd. rewrite Href in Hrd.
    unfold first_error in Hrd.
    rewrite (sql_eq_not_null _ _ Heq) in Hrd. rewrite Hcart in Hrd.
    assert (Hex : existsb (fun r0 => is_true (sql_eq (get c r0) (get "id" r)))
                          (rows db cart) = true).
    { apply existsb_exists. exists x. split; [assumption |].
      rewrite sql_eq_sym. assumption. }
    rewrite Hex in Hrd. cbn [negb andb] in Hrd.
    destruct (is_true (sql_eq (get "id" r)
                         (get "id" (assign (schema t) vals r)))) eqn:Hsame.
    + exists (assign (schema t) vals r). split.
      * rewrite Hnew. apply in_map_iff. exists r. rewrite Hw. auto.
      * eapply sql_eq_trans; eassumption.
    + cbn [negb andb] in Hrd.
      destruct (existsb _ (rows db' t)) eqn:Hstill; [| discriminate].
      apply existsb_exists in Hstill. destruct Hstill as (y & Hy & Hyr).
      exists y. split; [assumption |].
      rewrite sql_eq_sym in Hyr. eapply sql_eq_trans; eassumption.
  - exists r. split; [| assumption].
    rewrite Hnew. apply in_map_iff. exists r. rewrite Hw. auto.
Qed.

Lemma exec_keeps_references (e : env) (s : statement) (db db' : database) :
  Forall (fun r => references_ok (rows db catalog_users)
                     (rows db catalog_parts) r = true) (rows db cart) ->
  exec e s db = Ok db' ->
  Forall (fun r => references_ok (rows db' catalog_users)
                     (rows db' catalog_parts) r = true) (rows db' cart).
Proof.
  intros Hinv H. destruct s as [t vals | t vals w | t w].
  - (* INSERT *)
    simpl in H. apply insert_ok in H. cbv zeta in H.
    destruct H as (_ & _ & _ & _ & Hrf & ->).
    destruct t; simpl rows in *.
    + rewrite Forall_forall in *. intros r Hr. specialize (Hinv r Hr).
      unfold references_ok in *. apply andb_prop in Hinv.
      destruct Hinv as [Hu Hp]. rewrite Hp, andb_true_r.
      eapply points_to_incl; [| exact Hu].
      intros x Hx. apply in_or_app. auto.
    + rewrite Forall_forall in *. intros r Hr. specialize (Hinv r Hr).
      unfold references_ok in *. apply andb_prop in Hinv.
      destruct Hinv as [Hu Hp]. rewrite Hu. simpl.
      eapply points_to_incl; [| exact Hp].
      intros x Hx. apply in_or_app. auto.
    + apply Forall_app. split; [assumption |].
      constructor; [| constructor].
      apply check_references_cart in Hrf. exact Hrf.
    + assumption.
  - (* UPDATE *)
    change (exec e (Update t vals w) db) with (update t vals w db) in H.
    pose proof (update_ok_rows _ _ _ _ _ H) as Hrows.
    assert (Hother : forall t', t' <> t -> rows db' t' = rows db t').
    { intros t' Hne. rewrite Hrows. apply rows_set_rows_other, Hne. }
    destruct t.
    + rewrite (Hother cart), (Hother catalog_parts) by discriminate.
      rewrite Forall_forall in *. intros x Hx. specialize (Hinv x Hx).
      unfold references_ok in *. apply andb_prop in Hinv.
      destruct Hinv as [Hu Hp]. rewrite Hp, andb_true_r.
      apply (referenced_rows_stay catalog_users "user_id" vals w db db' x);
        auto.
    + rewrite (Hother cart), (Hother catalog_users) by discriminate.
      rewrite Forall_forall in *. intros x Hx. specialize (Hinv x Hx).
      unfold references_ok in *. apply andb_prop in Hinv.
      destruct Hinv as [Hu Hp]. rewrite Hu. simpl.
      apply (referenced_rows_stay catalog_parts "part_id" vals w db db' x);
        auto.
    + pose proof (update_ok_checked _ _ _ _ _ H) as Hchecked.
      assert (Hnew : rows db' cart
                     = map (fun r => if w r then assign (schema cart) vals r
                                     else r) (rows db cart)).
      { rewrite Hrows. apply rows_set_rows. }
      rewrite Hnew. rewrite Forall_forall in *. intros x Hx.
      apply in_map_iff in Hx. destruct Hx as (r & <- & Hr).
      rewrite (Hother catalog_users), (Hother catalog_parts) by discriminate.
      destruct (w r) eqn:Hw; [| apply Hinv, Hr].
      destruct (Hchecked r Hr Hw) as [_ Hrf].
      apply (check_references_changed_cart db' r) in Hrf.
      * rewrite (Hother catalog_users), (Hother catalog_parts) in Hrf
          by discriminate.
        exact Hrf.
      * rewrite (Hother catalog_users), (Hother catalog_parts)
          by discriminate.
        apply Hinv, Hr.
    + rewrite (Hother cart), (Hother catalog_users), (Hother catalog_parts)
        by discriminate.
      exact Hinv.
  - (* DELETE *)
    unfold exec in H. rewrite delete_closed_form in H. injection H as <-.
    destruct t; simpl rows in *.
    + rewrite Forall_forall in *. intros r Hr.
      apply filter_In in Hr. destruct Hr as [Hr Hkeep].
      specialize (Hinv r Hr). unfold references_ok in *.
      apply andb_prop in Hinv. destruct Hinv as [Hu Hp].
      rewrite Hp, andb_true_r.
      apply points_to_spec in Hu. apply points_to_spec.
      destruct Hu as [Hu | (x & Hx & Heq)]; [auto |]. right.
      exists x. split; [| assumption].
      apply filter_In. split; [assumption |].
      destruct (w x) eqn:Hw; [| reflexivity].
      assert (Hgone : refers_to "user_id" "id"
                        (filter w (tbl_catalog_users db)) r = true).
      { apply existsb_exists. exists x. split.
        - apply filter_In. auto.
        - rewrite sql_eq_sym. assumption. }
      rewrite Hgone in Hkeep. discriminate.
    + rewrite Forall_forall in *. intros r Hr.
      apply filter_In in Hr. destruct Hr as [Hr Hkeep].
      specialize (Hinv r Hr). unfold references_ok in *.
      apply andb_prop in Hinv. destruct Hinv as [Hu Hp].
      rewrite Hu. simpl.
      apply points_to_spec in Hp. apply points_to_spec.
      destruct Hp as [Hp | (x & Hx & Heq)]; [auto |]. right.
      exists x. split; [| assumption].
      apply filter_In. split; [assumption |].
      destruct (w x) eqn:Hw; [| reflexivity].
      assert (Hgone : refers_to "part_id" "id"
                        (filter w (tbl_catalog_parts db)) r = true).
      { apply existsb_exists. exists x. split.
        - apply filter_In. auto.
        - rewrite sql_eq_sym. assumption. }
      rewrite Hgone in Hkeep. discriminate.
    + rewrite Forall_forall in *. intros r Hr.
      apply filter_In in Hr. apply Hinv, Hr.
    + assumption.
Qed.

Lemma reachable_references_ok (db : database) :
  reachable db ->
  Forall (fun r => references_ok (rows db catalog_users)
                     (rows db catalog_parts) r = true) (rows db cart).
Proof.
  induction 1 as [| e s db db' _ IH H].
  - constructor.
  - eapply exec_keeps_references; eassumption.
Qed.

(** X7: referential integrity. In every reachable state each cart row's
    [user_id] is NULL or the id of a stored user, and its [part_id] is NULL
    or the id of a stored part. *)
Theorem cart_references_exist (db : database) :
  reachable db ->
  forall r, In r (rows db cart) ->
    (get "user_id" r = VNull
     \/ exists x, In x (rows db catalog_users) /\ get "id" x = get "user_id" r)
    /\ (get "part_id" r = VNull
        \/ exists x, In x (rows db catalog_parts)
                     /\ get "id" x = get "part_id" r).
Proof.
  intros Hreach r Hr.
  pose proof (reachable_references_ok db Hreach) as Hok.
  rewrite Forall_forall in Hok. specialize (Hok r Hr).
  unfold references_ok in Hok. apply andb_prop in Hok.
  destruct Hok as [Hu Hp].
  assert (Hcol : forall c a,
             In (col c UUID a) (columns (schema cart)) ->
             forall targets,
               points_to targets (get c r) = true ->
               get c r = VNull
               \/ exists x, In x targets /\ get "id" x = get c r).
  { intros c a Hc targets Hpt.
    destruct (stored_column db cart r (col c UUID a) Hreach Hr Hc) as [Hty _].
    simpl in Hty. apply points_to_spec in Hpt.
    destruct Hpt as [Hn | (x & Hx & Heq)]; [auto |]. right.
    exists x. split; [assumption |].
    destruct (typed_uuid _ Hty) as [Hnull | [u Hu']].
    - rewrite Hnull in Heq. destruct (get "id" x); discriminate.
    - rewrite Hu' in *. apply is_true_eq_uuid. assumption. }
  split.
  - apply (Hcol "user_id" [REFERENCES catalog_users "id" CASCADE]);
      [cbn; tauto | assumption].
  - apply (Hcol "part_id" [REFERENCES catalog_parts "id" CASCADE]);
      [cbn; tauto | assumption].
Qed.

Lemma no_target (targets : list row) (u : N) :
  (forall x, In x targets -> get "id" x <> VUuid u) ->
  points_to targets (VUuid u) = false.
Proof.
  intros Hnone. destruct (points_to targets (VUuid u)) eqn:H; [| reflexivity].
  apply points_to_spec in H. destruct H as [H | (x & Hx & Heq)];
    [discriminate |].
  apply is_true_eq_uuid in Heq. destruct (Hnone x Hx Heq).
Qed.

Lemma insert_rejected_on_reference (e : env) (vals : list (string * value))
    (db : database) :
  (check_request (schema cart) vals = None ->
   references_ok (rows db catalog_users) (rows db catalog_parts)
                 (build_row e (schema cart) vals) = false) ->
  (exists err, exec e (Insert cart vals) db = Rejected err)
  /\ state_after e (Insert cart vals) db = db.
Proof.
  intros Hbad.
  assert (Hrej : exists err, exec e (Insert cart vals) db = Rejected err).
  { destruct (exec e (Insert cart vals) db) as [db' |] eqn:H; [| eauto].
    simpl in H. apply insert_ok in H. cbv zeta in H.
    destruct H as (Hreq & _ & _ & _ & Hrf & _).
    apply check_references_cart in Hrf.
    rewrite !rows_set_rows_other in Hrf by discriminate.
    rewrite (Hbad Hreq) in Hrf. discriminate. }
  split; [exact Hrej |].
  destruct Hrej as [err Herr]. eapply rejected_state_after, Herr.
Qed.

(** X8: a cart row cannot be inserted for a user or a part that is not
    stored: an INSERT whose [user_id] (or [part_id]) is a UUID that no user
    (no part) has as id is rejected and changes nothing. *)
Theorem cart_insert_needs_existing_rows (e : env) (db : database)
    (vals : list (string * value)) (u : N) :
  (assigned "user_id" vals = Some (VUuid u) ->
   (forall x, In x (rows db catalog_users) -> get "id" x <> VUuid u) ->
   (exists err, exec e (Insert cart vals) db = Rejected err)
   /\ state_after e (Insert cart vals) db = db)
  /\ (assigned "part_id" vals = Some (VUuid u) ->
      (forall x, In x (rows db catalog_parts) -> get "id" x <> VUuid u) ->
      (exists err, exec e (Insert cart vals) db = Rejected err)
      /\ state_after e (Insert cart vals) db = db).
Proof.
  split; intros Hgiven Hnone; apply insert_rejected_on_reference;
    intros Hreq; unfold references_ok.
  - destruct (given_same_kind e cart vals _ _ cart_user_id_declared
                Hreq Hgiven eq_refl) as [Hget _].
    cbn [cname] in Hget.
    rewrite Hget, (no_target _ u Hnone). reflexivity.
  - destruct (given_same_kind e cart vals _ _ cart_part_id_declared
                Hreq Hgiven eq_refl) as [Hget _].
    cbn [cname] in Hget.
    rewrite Hget, (no_target _ u Hnone). apply andb_false_r.
Qed.

(** A SET value of the kind of its column is stored unchanged by an
    accepted UPDATE. *)
Lemma set_same_kind (t : table) (vals : list (string * value)) (r : row)
    (cd : column) (v : value) :
  In cd (columns (schema t)) ->
  check_assignments (schema t) vals = None ->
  assigned (cname cd) vals = Some v ->
  same_kind v (ctype cd) = true ->
  get (cname cd) (assign (schema t) vals r) = v.
Proof.
  intros Hcd Hreq Hv Hkind. apply check_assignments_request in Hreq.
  pose proof (request_casts _ _ cd v Hreq Hcd Hv) as Hcast.
  destruct (assign_cast_same_kind _ _ _ Hkind Hcast) as [Hsame _].
  rewrite (get_assign t vals r cd Hcd), Hv. exact Hsame.
Qed.

Lemma update_rejected_when_referenced (t : table) (c : string)
    (u u' : N) (db : database) :
  referencing t = [(cart, c, "id", CASCADE)] ->
  u <> u' ->
  (exists r, In r (rows db t) /\ get "id" r = VUuid u) ->
  (exists x, In x (rows db cart) /\ get c x = VUuid u) ->
  exists err,
    update t [("id", VUuid u')] (where_id u) db = Rejected err.
Proof.
  intros Href Hne (r & Hr & Hid) (x & Hx & Hxc).
  assert (Htc : t <> cart) by (intros ->; discriminate Href).
  destruct (update t [("id", VUuid u')] (where_id u) db) as [db' |] eqn:H;
    [| eauto].
  exfalso.
  pose proof (update_ok_rows _ _ _ _ _ H) as Hrows.
  pose proof (proj1 (update_ok _ _ _ _ _) H) as (Hreq & _ & _).
  assert (Hw : where_id u r = true).
  { unfold where_id. rewrite Hid. apply is_true_eq_uuid. reflexivity. }
  destruct (update_ok_checked _ _ _ _ _ H r Hr Hw) as [Hrd _].
  assert (Hset : forall y,
             get "id" (assign (schema t) [("id", VUuid u')] y) = VUuid u').
  { intros y.
    apply (set_same_kind t [("id", VUuid u')] y id_column (VUuid u')
             (id_column_declared t) Hreq eq_refl eq_refl). }
  unfold check_referenced in Hrd. rewrite Href in Hrd.
  unfold first_error in Hrd. rewrite Hset, Hid in Hrd.
  assert (Hcart : rows db' cart = rows db cart).
  { rewrite Hrows. apply rows_set_rows_other. congruence. }
  assert (Hex : existsb (fun r' => is_true (sql_eq (get c r') (VUuid u)))
                        (rows db' cart) = true).
  { rewrite Hcart. apply existsb_exists. exists x. split; [assumption |].
    apply is_true_eq_uuid. assumption. }
  assert (Hgone : existsb (fun y => is_true (sql_eq (get "id" y) (VUuid u)))
                          (rows db' t) = false).
  { apply existsb_false. intros y Hy.
    rewrite Hrows, rows_set_rows in Hy. apply in_map_iff in Hy.
    destruct Hy as (y0 & <- & _).
    destruct (where_id u y0) eqn:Hw0; [| exact Hw0].
    rewrite Hset. simpl.
    destruct (N.eqb_spec u' u); [congruence | reflexivity]. }
  rewrite Hex, Hgone in Hrd. simpl in Hrd.
  destruct (N.eqb_spec u u'); [contradiction | discriminate].
Qed.

(** X9: the references carry no ON UPDATE clause, so the id of a user (or
    of a part) that a cart row refers to cannot be changed: such an UPDATE
    is rejected and changes nothing. *)
Theorem referenced_id_cannot_change (e : env) (db : database) (u u' : N) :
  u <> u' ->
  ((exists r, In r (rows db catalog_users) /\ get "id" r = VUuid u) ->
   (exists x, In x (rows db cart) /\ get "user_id" x = VUuid u) ->
   (exists err,
       exec e (Update catalog_users [("id", VUuid u')] (where_id u)) db
       = Rejected err)
   /\ state_after e (Update catalog_users [("id", VUuid u')] (where_id u)) db
      = db)
  /\ ((exists r, In r (rows db catalog_parts) /\ get "id" r = VUuid u) ->
      (exists x, In x (rows db cart) /\ get "part_id" x = VUuid u) ->
      (exists err,
          exec e (Update catalog_parts [("id", VUuid u')] (where_id u)) db
          = Rejected err)
      /\ state_after e (Update catalog_parts [("id", VUuid u')] (where_id u)) db
         = db).
Proof.
  intros Hne. split; intros Hrow Href.
  - assert (Hrej : exists err,
               exec e (Update catalog_users [("id", VUuid u')] (where_id u)) db
               = Rejected err).
    { unfold exec.
      apply (update_rejected_when_referenced catalog_users "user_id"); auto. }
    split; [exact Hrej |].
    destruct Hrej as [err Herr]. eapply rejected_state_after, Herr.
  - assert (Hrej : exists err,
               exec e (Update catalog_parts [("id", VUuid u')] (where_id u)) db
               = Rejected err).
    { unfold exec.
      apply (update_rejected_when_referenced catalog_parts "part_id"); auto. }
    split; [exact Hrej |].
    destruct Hrej as [err Herr]. eapply rejected_state_after, Herr.
Qed.


(** *** Stored rows and the declaration of their table *)

Lemma reachable_shape (db : database) :
  reachable db ->
  forall t, Forall (fun r => map fst r = map cname (columns (schema t)))
                   (rows db t).
Proof.
  intros Hreach.
  apply (reachable_invariant
           (fun t rs => Forall (fun r => map fst r
                                         = map cname (columns (schema t))) rs));
    [ | | | | exact Hreach ].
  - intros t. constructor.
  - intros e t vals rs Hrs _ _ _ _.
    apply Forall_app. split; [assumption |].
    constructor; [| constructor].
    unfold build_row. rewrite map_map. reflexivity.
  - intros t vals done r rest Hrs _ _ _ _.
    apply Forall_app in Hrs. destruct Hrs as [Hdone Hrest].
    inversion Hrest; subst.
    apply Forall_app. split; [assumption |].
    constructor; [| assumption].
    unfold assign. rewrite map_map. reflexivity.
  - intros t rs f Hrs. rewrite Forall_forall in *.
    intros r Hr. apply filter_In in Hr. apply Hrs, Hr.
Qed.

(** X16: in every reachable state every row of every table has exactly the
    declared columns, in order; each holds a value of the declared type,
    not NULL where the column is NOT NULL or the primary key; and no CHECK
    of the table is false on the row. *)
Theorem stored_rows_fit_declaration (db : database) (t : table) (r : row) :
  reachable db ->
  In r (rows db t) ->
  map fst r = map cname (columns (schema t))
  /\ forall cd, In cd (columns (schema t)) ->
       has_type (get (cname cd) r) (ctype cd) = true
       /\ (is_not_null cd = true -> get (cname cd) r <> VNull)
       /\ (forall ex, In ex (checks_of cd) -> eval ex r <> Some false).
Proof.
  intros Hreach Hr. split.
  - pose proof (reachable_shape db Hreach t) as Hs.
    rewrite Forall_forall in Hs. apply Hs, Hr.
  - intros cd Hcd.
    pose proof (reachable_rows_ok db Hreach t) as Hok.
    rewrite Forall_forall in Hok.
    destruct (row_ok_column t r cd (Hok r Hr) Hcd) as (Hty & Hnn & Hck).
    repeat split.
    + assumption.
    + intros Hnot Hnull. specialize (Hnn Hnot). rewrite Hnull in Hnn.
      discriminate.
    + intros ex Hex Hfalse. specialize (Hck ex Hex). rewrite Hfalse in Hck.
      discriminate.
Qed.

(** *** Adding to the cart *)

Lemma points_to_uuid (targets : list row) (u : N) :
  points_to targets (VUuid u) = true <->
  exists x, In x targets /\ get "id" x = VUuid u.
Proof.
  rewrite points_to_spec. split.
  - intros [H | (x & Hx & Heq)]; [discriminate |].
    exists x. split; [assumption | apply is_true_eq_uuid; assumption].
  - intros (x & Hx & Heq). right. exists x.
    split; [assumption | apply is_true_eq_uuid; assumption].
Qed.

(** The request of an INSERT of a user, a part and a quantity passes the
    checks made before the row is built exactly when the three values are
    of the types of their columns. *)
Lemma add_to_cart_request (u p : N) (q : Z) :
  check_request (schema cart)
    [("user_id", VUuid u); ("part_id", VUuid p); ("quantity", VInt q)] = None
  <-> valid_uuid u = true /\ valid_uuid p = true /\ valid_int4 q = true.
Proof.
  split.
  - intros Hreq.
    pose proof (request_casts _ _ _ (VUuid u) Hreq cart_user_id_declared
                  eq_refl) as Hu.
    pose proof (request_casts _ _ _ (VUuid p) Hreq cart_part_id_declared
                  eq_refl) as Hp.
    pose proof (request_casts _ _ _ (VInt q) Hreq cart_quantity_declared
                  eq_refl) as Hq.
    apply assign_cast_same_kind in Hu, Hp, Hq; try reflexivity.
    destruct Hu as [_ Hu], Hp as [_ Hp], Hq as [_ Hq]. auto.
  - intros (Hu & Hp & Hq).
    assert (Hty : given_typed (schema cart)
                    [("user_id", VUuid u); ("part_id", VUuid p);
                     ("quantity", VInt q)]) by solve_given_typed.
    rewrite (check_request_typed cart _ Hty). reflexivity.
Qed.

(** The INSERT of a row for user [u], part [p] and quantity [q], in any
    state of the tables. *)
Lemma add_to_cart_accepted (e : env) (db : database) (u p : N) (q : Z) :
  let new := [("id", VUuid (gen_random_uuid e)); ("user_id", VUuid u);
              ("part_id", VUuid p); ("quantity", VInt q);
              ("created_at", VTime (now e))] in
  exec e (Insert cart [("user_id", VUuid u); ("part_id", VUuid p);
                       ("quantity", VInt q)]) db
  = Ok (set_rows db cart (rows db cart ++ [new]))
  <-> (valid_uuid u = true
       /\ valid_uuid p = true
       /\ 0 < q <= int4_max
       /\ (exists x, In x (rows db catalog_users) /\ get "id" x = VUuid u)
       /\ (exists x, In x (rows db catalog_parts) /\ get "id" x = VUuid p)
       /\ (forall r, In r (rows db cart) ->
             ~ (get "user_id" r = VUuid u /\ get "part_id" r = VUuid p))
       /\ (forall r, In r (rows db cart) ->
             get "id" r <> VUuid (gen_random_uuid e))).
Proof.
  intros new.
  set (vals := [("user_id", VUuid u); ("part_id", VUuid p);
                ("quantity", VInt q)]).
  assert (Hint : valid_int4 q = true <-> int4_min <= q <= int4_max).
  { unfold valid_int4. rewrite andb_true_iff, !Z.leb_le. reflexivity. }
  destruct (check_request (schema cart) vals) as [err |] eqn:Hreq.
  - (* the request is turned down: one of the values is not of its type *)
    assert (Hbad : ~ (valid_uuid u = true /\ valid_uuid p = true
                      /\ valid_int4 q = true)).
    { intros H. apply add_to_cart_request in H. fold vals in H. congruence. }
    split.
    + intros H. unfold exec in H. apply insert_ok in H.
      destruct H as [H _]. congruence.
    + intros (Hu & Hp & Hq & _). destruct Hbad. repeat split; auto.
      apply Hint. unfold int4_min, int4_max in *. lia.
  - pose proof (proj1 (add_to_cart_request u p q) Hreq) as (Hu & Hp & Hq).
    assert (Hty : given_typed (schema cart) vals) by solve_given_typed.
    assert (Hnew : build_row e (schema cart) vals = new).
    { rewrite (build_row_typed e cart vals Hty). reflexivity. }
    unfold exec. rewrite insert_ok. cbv zeta. rewrite Hnew.
    assert (Hnn : check_not_null (schema cart) new = None) by reflexivity.
    assert (Hck : check_checks (schema cart) new = None <-> 0 < q).
    { cbn. destruct (Z.ltb_spec 0 q); simpl; split;
        try discriminate; try reflexivity; lia. }
    assert (Hun : check_unique (schema cart) (rows db cart) new = None
                  <-> (forall r, In r (rows db cart) ->
                         get "id" r <> VUuid (gen_random_uuid e))
                      /\ (forall r, In r (rows db cart) ->
                            ~ (get "user_id" r = VUuid u
                               /\ get "part_id" r = VUuid p))).
    { split.
      - intros H. split; intros r Hr.
        + intros Hid.
          pose proof (check_unique_none _ _ _ H ["id"] r
                        ltac:(cbn; tauto) Hr) as Hs.
          unfold same_key in Hs. simpl in Hs. rewrite Hid in Hs. simpl in Hs.
          rewrite N.eqb_refl in Hs. discriminate.
        + intros [Hu' Hp'].
          pose proof (check_unique_none _ _ _ H ["user_id"; "part_id"] r
                        ltac:(cbn; tauto) Hr) as Hs.
          unfold same_key in Hs. simpl in Hs. rewrite Hu', Hp' in Hs.
          simpl in Hs. rewrite !N.eqb_refl in Hs. discriminate.
      - intros [Hid Hpair]. unfold check_unique.
        change (unique_keys (schema cart))
          with [["id"]; ["user_id"; "part_id"]].
        unfold first_error.
        assert (H1 : existsb (same_key ["id"] new) (rows db cart) = false).
        { apply existsb_false. intros r Hr.
          destruct (same_key ["id"] new r) eqn:Hs; [| reflexivity].
          destruct (Hid r Hr). apply is_true_eq_uuid.
          unfold same_key in Hs. cbn [forallb] in Hs.
          change (get "id" new) with (VUuid (gen_random_uuid e)) in Hs.
          rewrite andb_true_r in Hs.
          rewrite sql_eq_sym. exact Hs. }
        assert (H2 : existsb (same_key ["user_id"; "part_id"] new)
                             (rows db cart) = false).
        { apply existsb_false. intros r Hr.
          destruct (same_key ["user_id"; "part_id"] new r) eqn:Hs;
            [| reflexivity].
          destruct (Hpair r Hr).
          unfold same_key in Hs. cbn [forallb] in Hs.
          change (get "user_id" new) with (VUuid u) in Hs.
          change (get "part_id" new) with (VUuid p) in Hs.
          rewrite andb_true_r in Hs.
          apply andb_prop in Hs. destruct Hs as [Hu' Hp'].
          rewrite sql_eq_sym in Hu'. rewrite sql_eq_sym in Hp'.
          split; apply is_true_eq_uuid; assumption. }
        rewrite H1, H2. reflexivity. }
    assert (Hrf : check_references
                    (set_rows db cart (rows db cart ++ [new])) (schema cart) new
                  = None
                  <-> (exists x, In x (rows db catalog_users)
                                 /\ get "id" x = VUuid u)
                      /\ (exists x, In x (rows db catalog_parts)
                                    /\ get "id" x = VUuid p)).
    { rewrite check_references_cart.
      rewrite !rows_set_rows_other by discriminate.
      unfold references_ok.
      change (get "user_id" new) with (VUuid u).
      change (get "part_id" new) with (VUuid p).
      rewrite andb_true_iff, !points_to_uuid. reflexivity. }
    rewrite Hck, Hun, Hrf. apply Hint in Hq.
    unfold int4_min, int4_max in *.
    split.
    + intros (_ & _ & H3 & (H4 & H5) & (H6 & H7) & _).
      repeat split; auto; lia.
    + intros (_ & _ & (H1 & H2) & H3 & H4 & H5 & H6).
      repeat split; auto; try lia.
Qed.

(** X17: adding a part to a user's cart. The INSERT of a row for user [u],
    part [p] and quantity [q] is accepted exactly when [u] and [p] are
    UUIDs, [q] is a positive 32-bit integer, a user with id [u] and a part
    with id [p] are stored, the cart has no row yet for that pair and the
    generated id is new; it then appends that one row. In a reachable state
    the ids of the stored rows are UUIDs, so the first condition need not be
    asked. *)
Theorem add_to_cart_accepted_iff (e : env) (db : database) (u p : N) (q : Z) :
  let new := [("id", VUuid (gen_random_uuid e)); ("user_id", VUuid u);
              ("part_id", VUuid p); ("quantity", VInt q);
              ("created_at", VTime (now e))] in
  (exec e (Insert cart [("user_id", VUuid u); ("part_id", VUuid p);
                        ("quantity", VInt q)]) db
   = Ok (set_rows db cart (rows db cart ++ [new]))
   <-> (valid_uuid u = true
        /\ valid_uuid p = true
        /\ 0 < q <= int4_max
        /\ (exists x, In x (rows db catalog_users) /\ get "id" x = VUuid u)
        /\ (exists x, In x (rows db catalog_parts) /\ get "id" x = VUuid p)
        /\ (forall r, In r (rows db cart) ->
              ~ (get "user_id" r = VUuid u /\ get "part_id" r = VUuid p))
        /\ (forall r, In r (rows db cart) ->
              get "id" r <> VUuid (gen_random_uuid e))))
  /\ (reachable db ->
      (exec e (Insert cart [("user_id", VUuid u); ("part_id", VUuid p);
                            ("quantity", VInt q)]) db
       = Ok (set_rows db cart (rows db cart ++ [new]))
       <-> (0 < q <= int4_max
            /\ (exists x, In x (rows db catalog_users) /\ get "id" x = VUuid u)
            /\ (exists x, In x (rows db catalog_parts) /\ get "id" x = VUuid p)
            /\ (forall r, In r (rows db cart) ->
                  ~ (get "user_id" r = VUuid u /\ get "part_id" r = VUuid p))
            /\ (forall r, In r (rows db cart) ->
                  get "id" r <> VUuid (gen_random_uuid e))))).
Proof.
  intros new. pose proof (add_to_cart_accepted e db u p q) as Hany.
  cbv zeta in Hany. fold new in Hany.
  split; [exact Hany |].
  intros Hreach. rewrite Hany. split.
  - intros (_ & _ & H). exact H.
  - intros H.
    assert (Hid : forall t v,
               (exists x, In x (rows db t) /\ get "id" x = VUuid v) ->
               valid_uuid v = true).
    { intros t v (x & Hx & Hv).
      destruct (stored_column db t x id_column Hreach Hx
                  (id_column_declared t)) as [Hty _].
      change (cname id_column) with "id" in Hty. rewrite Hv in Hty.
      exact Hty. }
    destruct H as (Hq & Hu & Hp & Hrest).
    repeat split; try exact (proj1 Hq); try exact (proj2 Hq);
      try exact (Hid _ _ Hu); try exact (Hid _ _ Hp);
      try exact Hu; try exact Hp; try exact (proj1 Hrest);
      try exact (proj2 Hrest).
Qed.

(** *** The statements on sample data *)

Import Samples.

Lemma insert_then_lookup_witness :
  exists r,
    rows (state_after (at_uuid 5)
            (Insert catalog_parts
               (("qty", VNumeric 15 1) :: ("image_url", VNull) :: bolt)) shop)
         catalog_parts
    = rows shop catalog_parts ++ [r]
    /\ get "qty" r = VInt 2
    /\ get "image_url" r = VNull
    /\ get "price" r = VNumeric 125 2
    /\ get "created_at" r = VTime 0.
Proof.
  destruct (insert_then_lookup (at_uuid 5) catalog_parts
              (("qty", VNumeric 15 1) :: ("image_url", VNull) :: bolt)
              shop _ eq_refl) as (r & Hr & Hcast & Hsame).
  exists r. split; [exact Hr | split; [| split; [| split]]].
  - pose proof (Hcast (col "qty" INTEGER [DEFAULT (lit (VInt 0))])
                  ltac:(cbn; tauto)) as H.
    injection H as H. symmetry. exact H.
  - apply (Hsame (col "image_url" TEXT []) VNull); [cbn; tauto | |];
      reflexivity.
  - apply (Hsame (col "price" NUMERIC [NOT_NULL]) (VNumeric 125 2));
      [cbn; tauto | |]; reflexivity.
  - apply (Hcast (col "created_at" TIMESTAMPTZ [DEFAULT call_now])).
    cbn. tauto.
Defined.

Lemma insert_requires_not_null_columns_witness :
  state_after (at_uuid 5)
    (Insert catalog_users [("email", VText "bob@example.com");
                           ("name", VText "Bob")]) shop = shop.
Proof.
  apply (insert_requires_not_null_columns (at_uuid 5) catalog_users _ shop
           (col "password_hash" TEXT [NOT_NULL])).
  - cbn. tauto.
  - reflexivity.
  - right. split; reflexivity.
Defined.

Lemma update_rewrites_selected_rows_witness :
  rows (state_after (at_uuid 0)
          (Update catalog_parts
             [("price", VInt 99); ("qty", VNumeric 15 1)] (where_id 2)) shop)
       catalog_parts
  = [[("id", VUuid 2); ("part_number", VText "B-8");
      ("name_en", VText "Bolt"); ("name_ru", VText "Bolt M8");
      ("category", VText "fasteners"); ("price", VNumeric 99 0);
      ("qty", VInt 2); ("image_url", VNull);
      ("created_at", VTime 0); ("updated_at", VTime 0)]].
Proof.
  destruct (update_rewrites_selected_rows (at_uuid 0) catalog_parts
              [("price", VInt 99); ("qty", VNumeric 15 1)] (where_id 2) shop
              (state_after (at_uuid 0)
                 (Update catalog_parts
                    [("price", VInt 99); ("qty", VNumeric 15 1)] (where_id 2))
                 shop)
              eq_refl) as [H _].
  rewrite H. reflexivity.
Defined.

Lemma cart_references_exist_witness :
  let r := [("id", VUuid 3); ("user_id", VUuid 1); ("part_id", VUuid 2);
            ("quantity", VInt 1); ("created_at", VTime 0)] in
  (get "user_id" r = VNull
   \/ exists x, In x (rows shop catalog_users) /\ get "id" x = get "user_id" r)
  /\ (get "part_id" r = VNull
      \/ exists x, In x (rows shop catalog_parts)
                   /\ get "id" x = get "part_id" r).
Proof.
  cbv zeta. apply (cart_references_exist shop shop_reachable).
  left. reflexivity.
Defined.

Lemma referenced_id_cannot_change_witness :
  state_after (at_uuid 0)
    (Update catalog_users [("id", VUuid 7)] (where_id 1)) shop = shop.
Proof.
  destruct (referenced_id_cannot_change (at_uuid 0) shop 1 7) as [H _].
  - discriminate.
  - apply H.
    + eexists. split; [left; reflexivity | reflexivity].
    + eexists. split; [left; reflexivity | reflexivity].
Defined.


Lemma stored_rows_fit_declaration_witness :
  let r := [("id", VUuid 3); ("user_id", VUuid 1); ("part_id", VUuid 2);
            ("quantity", VInt 1); ("created_at", VTime 0)] in
  map fst r = map cname (columns (schema cart))
  /\ has_type (get "quantity" r) INTEGER = true.
Proof.
  cbv zeta.
  destruct (stored_rows_fit_declaration shop cart
              [("id", VUuid 3); ("user_id", VUuid 1); ("part_id", VUuid 2);
               ("quantity", VInt 1); ("created_at", VTime 0)]
              shop_reachable (or_introl eq_refl)) as [Hshape Hcols].
  split; [exact Hshape |].
  apply (Hcols (col "quantity" INTEGER
                    [DEFAULT (lit (VInt 1)); CHECK (EGt "quantity" 0)])).
  cbn. tauto.
Defined.

End SchemaFacts.

(** ** Statements run by a role *)

Module RolesFacts.
Import Sql Schema Rls Engine Roles EngineFacts SchemaFacts.
Local Open Scope list_scope.

(** X11: the policies tell neither the two roles nor the rows apart:
    whether a command is permitted on a table is the same for [anon] and
    [authenticated] and for any existing and proposed row. *)
Theorem permission_ignores_role_and_row
    (r r' : role) (c : command) (t : table) (old new old' new' : row) :
  permitted r c t old new = permitted r' c t old' new'.
Proof. destruct r, r', c, t; reflexivity. Qed.

Lemma update_rows_ext (t : table) (vals : list (string * value))
    (w w' : row -> bool) (db : database) :
  (forall r, w r = w' r) ->
  forall todo done,
    update_rows t vals w db done todo = update_rows t vals w' db done todo.
Proof.
  intros Hext. induction todo as [|r rest IH]; intros done; [reflexivity |].
  rewrite !update_rows_cons, <- Hext, !IH. reflexivity.
Qed.

Lemma update_ext (t : table) (vals : list (string * value))
    (w w' : row -> bool) (db : database) :
  (forall r, w r = w' r) ->
  update t vals w db = update t vals w' db.
Proof.
  intros Hext. unfold update.
  rewrite (update_rows_ext t vals w w' db Hext).
  assert (Hafter : forall db',
             check_after_update t vals w db db'
             = check_after_update t vals w' db db').
  { intros db'. unfold check_after_update. apply first_error_ext.
    intros r _. rewrite Hext. reflexivity. }
  destruct (update_rows t vals w' db [] (rows db t)); [| reflexivity].
  rewrite Hafter. reflexivity.
Qed.

Lemma delete_from_ext (t : table) (w w' : row -> bool) (db : database) :
  (forall r, w r = w' r) ->
  delete_from (S (List.length all_tables)) t w db
  = delete_from (S (List.length all_tables)) t w' db.
Proof.
  intros Hext. rewrite !delete_closed_form.
  assert (Hf : forall l : list row, filter w l = filter w' l)
    by (intros l; apply filter_ext; assumption).
  assert (Hn : forall l : list row,
             filter (fun r => negb (w r)) l = filter (fun r => negb (w' r)) l)
    by (intros l; apply filter_ext; intros r; rewrite Hext; reflexivity).
  destruct t; rewrite ?Hf, ?Hn; reflexivity.
Qed.

Lemma filter_false {A : Type} (l : list A) : filter (fun _ => false) l = [].
Proof. induction l; simpl; auto. Qed.

Lemma delete_nothing (t : table) (w : row -> bool) (db : database) :
  (forall r, w r = false) ->
  delete_from (S (List.length all_tables)) t w db = Ok db.
Proof.
  intros Hw. rewrite (delete_from_ext t w (fun _ => false) db Hw).
  rewrite delete_closed_form.
  destruct db, t; simpl; rewrite ?filter_false; simpl;
    rewrite ?filter_all; reflexivity.
Qed.

(** X12: apart from DELETE on [catalog_users] and on [verification_codes],
    row-level security changes nothing: for either role every statement
    ends exactly as it would with the policies switched off, and is never
    denied. *)
Theorem policies_restrict_nothing_else (who : role) (e : env) (s : statement)
    (db : database) :
  (forall w, s <> Delete catalog_users w) ->
  (forall w, s <> Delete verification_codes w) ->
  exec_as who e s db = lift (exec e s db).
Proof.
  intros Hu Hv. destruct s as [t vals | t vals w | t w].
  - simpl. unfold insert.
    destruct (check_request (schema t) vals); [reflexivity |].
    assert (Hw : may_write who INSERT t (build_row e (schema t) vals) = true)
      by (destruct who, t; reflexivity).
    rewrite Hw. reflexivity.
  - simpl.
    destruct (check_assignments (schema t) vals) eqn:Hreq.
    { unfold update. rewrite Hreq. reflexivity. }
    assert (Hreach : forall r, w r && within_reach who UPDATE t r = w r).
    { intros r. assert (H : within_reach who UPDATE t r = true)
        by (destruct who, t; reflexivity).
      rewrite H. apply andb_true_r. }
    assert (Hall : forallb
                     (fun r => negb (w r && within_reach who UPDATE t r)
                               || may_write who UPDATE t
                                    (assign (schema t) vals r))
                     (rows db t) = true).
    { apply forallb_forall. intros r _.
      assert (H : may_write who UPDATE t (assign (schema t) vals r) = true)
        by (destruct who, t; reflexivity).
      rewrite H. apply orb_true_r. }
    rewrite Hall. f_equal. apply update_ext. assumption.
  - unfold exec_as, exec. f_equal. apply delete_from_ext. intros r.
    assert (H : within_reach who DELETE t r = true).
    { destruct t; try (destruct who; reflexivity).
      - destruct (Hu w). reflexivity.
      - destruct (Hv w). reflexivity. }
    rewrite H. apply andb_true_r.
Qed.

Lemma role_delete_users_or_codes (who : role) (e : env) (t : table)
    (w : row -> bool) (db : database) :
  t = catalog_users \/ t = verification_codes ->
  exec_as who e (Delete t w) db = Done db.
Proof.
  intros Ht. unfold exec_as. rewrite delete_nothing; [reflexivity |].
  intros r.
  assert (H : within_reach who DELETE t r = false)
    by (destruct Ht; subst t; destruct who; reflexivity).
  rewrite H. apply andb_false_r.
Qed.

Lemma role_step_keeps_count (who : role) (e : env) (s : statement)
    (db : database) (t : table) :
  t = catalog_users \/ t = verification_codes ->
  (List.length (rows db t)
   <= List.length (rows (state_after_as who e s db) t))%nat.
Proof.
  intros Ht. unfold state_after_as.
  destruct (exec_as who e s db) as [db' | |] eqn:H; [| lia | lia].
  destruct s as [t0 vals | t0 vals w | t0 w].
  - simpl in H. destruct (check_request (schema t0) vals); [discriminate |].
    destruct (may_write _ _ _ _); [| discriminate].
    destruct (insert e t0 vals db) as [db'' |] eqn:Hi; [| discriminate].
    injection H as <-. apply insert_ok in Hi. cbv zeta in Hi.
    destruct Hi as (_ & _ & _ & _ & _ & ->).
    destruct (table_eq_dec t t0) as [-> | Hne].
    + rewrite rows_set_rows, length_app. lia.
    + rewrite rows_set_rows_other by assumption. lia.
  - simpl in H. destruct (check_assignments (schema t0) vals) eqn:Hreq;
      [discriminate |].
    destruct (forallb _ _); [| discriminate].
    destruct (update t0 vals _ db) as [db'' |] eqn:Hup; [| discriminate].
    injection H as <-. apply update_ok_rows in Hup. subst db''.
    destruct (table_eq_dec t t0) as [-> | Hne].
    + rewrite rows_set_rows, length_map. lia.
    + rewrite rows_set_rows_other by assumption. lia.
  - destruct (table_eq_dec t0 catalog_users) as [-> | Hnu].
    { rewrite role_delete_users_or_codes in H by auto.
      injection H as <-. lia. }
    destruct (table_eq_dec t0 verification_codes) as [-> | Hnv].
    { rewrite role_delete_users_or_codes in H by auto.
      injection H as <-. lia. }
    unfold exec_as in H.
    destruct (delete_from _ t0 _ db) as [db'' |] eqn:Hd; [| discriminate].
    injection H as <-. rewrite delete_closed_form in Hd. injection Hd as <-.
    destruct Ht; subst t; destruct t0; simpl; try congruence; lia.
Qed.

(** X13: neither role can delete a user or a verification code. Such a
    DELETE is accepted and removes nothing, whatever its WHERE; and over
    any session of statements issued by the two roles the number of users
    and the number of verification codes never go down. *)
Theorem roles_never_delete_users_or_codes
    (steps : list (role * env * statement)) (db : database) :
  (forall who e w,
      exec_as who e (Delete catalog_users w) db = Done db
      /\ exec_as who e (Delete verification_codes w) db = Done db)
  /\ (List.length (rows db catalog_users)
      <= List.length (rows (run_as steps db) catalog_users))%nat
  /\ (List.length (rows db verification_codes)
      <= List.length (rows (run_as steps db) verification_codes))%nat.
Proof.
  split.
  - intros who e w. split; apply role_delete_users_or_codes; auto.
  - assert (H : forall t, t = catalog_users \/ t = verification_codes ->
                  (List.length (rows db t)
                   <= List.length (rows (run_as steps db) t))%nat).
    { intros t Ht. revert db. unfold run_as.
      induction steps as [|[[who e] s] steps IH]; intros db; simpl; [lia |].
      etransitivity; [| apply IH].
      apply role_step_keeps_count. assumption. }
    split; apply H; auto.
Qed.

Lemma policies_restrict_nothing_else_witness :
  exec_as anon (Samples.at_uuid 4)
          (Delete catalog_parts (where_id 2)) Samples.shop
  = Done {| tbl_catalog_users := tbl_catalog_users Samples.shop;
            tbl_catalog_parts := [];
            tbl_cart := [];
            tbl_verification_codes := [] |}.
Proof.
  rewrite policies_restrict_nothing_else.
  - reflexivity.
  - discriminate.
  - discriminate.
Defined.

End RolesFacts.

(** ** Client bootstrap: where the two values come from *)

Module BootstrapSources.
Import Bootstrap.

Section Module_body.

Variables SUPABASE_URL SUPABASE_ANON_KEY : js_value.
Variable SupabaseClient : Type.
Variable createClient :
  js_value -> js_value -> client_options -> completion SupabaseClient.

Local Abbreviation stateless :=
  {| auth := {| autoRefreshToken := false;
                persistSession := false;
                detectSessionInUrl := false |} |}.

Lemma truthy_js_or (a b : js_value) :
  truthy (js_or a b) = truthy a || truthy b.
Proof. unfold js_or. destruct (truthy a) eqn:Ha; simpl; auto. Qed.

(** X14: the module logs, and then throws the fixed message without calling
    [createClient], exactly when, for the URL or for the key, both the
    environment entry and the imported constant are unset or empty. An
    environment entry that is set wins over the constant; when both
    constants are set, every environment leads to the call of
    [createClient], which alone decides how evaluation ends. *)
Theorem fails_only_without_env_and_constant (env : import_meta_env) :
  (console (load SUPABASE_URL SUPABASE_ANON_KEY SupabaseClient createClient env)
   <> []
   <-> (truthy (VITE_SUPABASE_URL env) = false /\ truthy SUPABASE_URL = false)
       \/ (truthy (VITE_SUPABASE_ANON_KEY env) = false
           /\ truthy SUPABASE_ANON_KEY = false))
  /\ (console (load SUPABASE_URL SUPABASE_ANON_KEY SupabaseClient createClient env)
      <> [] ->
      completed (load SUPABASE_URL SUPABASE_ANON_KEY SupabaseClient createClient env)
      = Throw missing_message)
  /\ (truthy (VITE_SUPABASE_URL env) = true ->
      supabaseUrl SUPABASE_URL env = VITE_SUPABASE_URL env)
  /\ (truthy (VITE_SUPABASE_ANON_KEY env) = true ->
      supabaseAnonKey SUPABASE_ANON_KEY env = VITE_SUPABASE_ANON_KEY env)
  /\ (truthy SUPABASE_URL = true -> truthy SUPABASE_ANON_KEY = true ->
      load SUPABASE_URL SUPABASE_ANON_KEY SupabaseClient createClient env
      = {| console := [];
           completed :=
             createClient
               (if truthy (VITE_SUPABASE_URL env)
                then VITE_SUPABASE_URL env else SUPABASE_URL)
               (if truthy (VITE_SUPABASE_ANON_KEY env)
                then VITE_SUPABASE_ANON_KEY env else SUPABASE_ANON_KEY)
               stateless |}).
Proof.
  unfold load, supabaseUrl, supabaseAnonKey. rewrite !truthy_js_or.
  unfold js_or.
  destruct (truthy (VITE_SUPABASE_URL env)),
           (truthy (VITE_SUPABASE_ANON_KEY env)),
           (truthy SUPABASE_URL), (truthy SUPABASE_ANON_KEY); simpl;
    repeat split; intros; try reflexivity; try discriminate; try tauto;
    try congruence; intuition discriminate.
Qed.

(** X15: the text of the module without fallback constants logs, and then
    throws the fixed message without calling [createClient], exactly when
    an environment entry is unset or empty; otherwise it ends as the call of
    [createClient] on the two entries ends. Whenever both entries are set,
    the module with the constants, whatever they are, does what that text
    does: the constants are not consulted. *)
Theorem fallback_extends_env_only (env : import_meta_env) :
  (console (BootstrapEnvOnly.load SupabaseClient createClient env) <> []
   <-> truthy (VITE_SUPABASE_URL env) = false
       \/ truthy (VITE_SUPABASE_ANON_KEY env) = false)
  /\ (console (BootstrapEnvOnly.load SupabaseClient createClient env) <> [] ->
      completed (BootstrapEnvOnly.load SupabaseClient createClient env)
      = Throw missing_message)
  /\ (truthy (VITE_SUPABASE_URL env) = true ->
      truthy (VITE_SUPABASE_ANON_KEY env) = true ->
      BootstrapEnvOnly.load SupabaseClient createClient env
      = {| console := [];
           completed :=
             createClient (VITE_SUPABASE_URL env) (VITE_SUPABASE_ANON_KEY env)
               stateless |}
      /\ load SUPABASE_URL SUPABASE_ANON_KEY SupabaseClient createClient env
         = BootstrapEnvOnly.load SupabaseClient createClient env).
Proof.
  unfold BootstrapEnvOnly.load, BootstrapEnvOnly.supabaseUrl,
    BootstrapEnvOnly.supabaseAnonKey, load, supabaseUrl, supabaseAnonKey,
    js_or.
  destruct (truthy (VITE_SUPABASE_URL env)) eqn:Hu,
           (truthy (VITE_SUPABASE_ANON_KEY env)) eqn:Hk; simpl;
    repeat split; intros; try reflexivity; try discriminate; try tauto;
    try congruence;
    try (rewrite ?Hu, ?Hk; reflexivity); intuition discriminate.
Qed.

End Module_body.

End BootstrapSources.
